(** * Email spam detection: the result cache, the classifier and the Gmail client

    A shallow embedding of [app/main.py], [app/services/spam_classifier.py]
    and [app/services/gmail_service.py].

    - Python [str] values are [string]s whose characters are the code points
      0..255; [lower], [strip] and [in] are written out on them.
    - Python values that reach [str(...)], [or] and slicing are a small
      tagged union [Py.value]; an operation that raises returns [inl exn].
    - [email_cache] is a [gmap string entry]; every [dt.now()] of the source
      is an explicit clock reading, in microseconds, passed to the operation
      that performs it.
    - The text-generation pipeline, the base64/UTF-8 decoder, the HTML text
      extractor and the remote trash call are parameters of the sections
      that use them. *)

From Stdlib Require Import ZArith List String Ascii Bool Lia.
From stdpp Require Import gmap strings list fin_maps pretty.

Open Scope Z_scope.

(** ** Python values and exceptions *)

Module Py.

Inductive value :=
| PyNone
| PyStr (s : string)
| PyInt (n : Z).

Inductive exn :=
| TypeError (msg : string)
| ApiError (msg : string).

Definition result (A : Type) : Type := exn + A.

Definition ret {A} (a : A) : result A := inr a.
Definition raise {A} (e : exn) : result A := inl e.
Definition bind {A B} (m : result A) (k : A -> result B) : result B :=
  match m with
  | inl e => inl e
  | inr a => k a
  end.

(** [bool(v)] *)
Definition truthy (v : value) : bool :=
  match v with
  | PyNone => false
  | PyStr s => negb (String.eqb s "")
  | PyInt n => negb (n =? 0)
  end.

(** [a or b] *)
Definition or_ (a b : value) : value := if truthy a then a else b.

(** [str(v)], also what an f-string field renders *)
Definition str (v : value) : string :=
  match v with
  | PyNone => "None"
  | PyStr s => s
  | PyInt n => pretty n
  end.

(** [v[:n]] *)
Definition slice_to (n : nat) (v : value) : result string :=
  match v with
  | PyStr s => ret (substring 0 n s)
  | PyNone => raise (TypeError "'NoneType' object is not subscriptable")
  | PyInt _ => raise (TypeError "'int' object is not subscriptable")
  end.

(** An optional string argument as the value Python sees. *)
Definition optional (o : option string) : value :=
  match o with
  | None => PyNone
  | Some s => PyStr s
  end.

End Py.

Notation "x <- m ;; k" := (Py.bind m (fun x => k))
  (at level 100, m at next level, right associativity).

(** ** [str.lower], [str.strip] and [in] on code points below 256 *)

Module Text.

Definition code (c : ascii) : N := N_of_ascii c.

(** [c.isspace()]: TAB..CR, FS..US, SPACE, NEL and NBSP. *)
Definition isspace (c : ascii) : bool :=
  let n := code c in
  ((9 <=? n) && (n <=? 13) || (28 <=? n) && (n <=? 32)
   || (n =? 133) || (n =? 160))%N.

(** [c.lower()]: A..Z and the Latin-1 capitals other than the
    multiplication sign move up by 32. *)
Definition lower_char (c : ascii) : ascii :=
  let n := code c in
  if ((65 <=? n) && (n <=? 90)
      || (192 <=? n) && (n <=? 222) && negb (n =? 215))%N
  then ascii_of_N (n + 32)
  else c.

Fixpoint lower (s : string) : string :=
  match s with
  | EmptyString => EmptyString
  | String c t => String (lower_char c) (lower t)
  end.

Fixpoint lstrip (s : string) : string :=
  match s with
  | EmptyString => EmptyString
  | String c t => if isspace c then lstrip t else s
  end.

Fixpoint rstrip (s : string) : string :=
  match s with
  | EmptyString => EmptyString
  | String c t =>
      match rstrip t with
      | EmptyString => if isspace c then EmptyString else String c EmptyString
      | t' => String c t'
      end
  end.

Definition strip (s : string) : string := rstrip (lstrip s).

(** [needle in hay] *)
Fixpoint contains (needle hay : string) : bool :=
  if String.prefix needle hay then true
  else match hay with
       | EmptyString => false
       | String _ t => contains needle t
       end.

(** Every character of [s] is white space. *)
Fixpoint blank (s : string) : bool :=
  match s with
  | EmptyString => true
  | String c t => isspace c && blank t
  end.

Definition nl : string := String (ascii_of_nat 10) EmptyString.

End Text.

(** ** [datetime.strptime] and [strftime] for the formats the code uses *)

Module Dates.
Import Text.

Record date := {
  year : Z;
  month : Z;
  day : Z
}.

(** [\d] on code points below 256. *)
Definition digit (c : ascii) : option Z :=
  let n := code c in
  if ((48 <=? n) && (n <=? 57))%N then Some (Z.of_N n - 48) else None.

(** The pieces of [s] between its dashes.  The expression [_strptime]
    builds for ["%d-%m-%Y"] and ["%Y-%m-%d"] is three fields joined by
    dashes, no field can hold a dash, and the whole string must be
    consumed: the fields are these pieces. *)
Fixpoint split_dash (s : string) : list string :=
  match s with
  | EmptyString => [EmptyString]
  | String c t =>
      if Ascii.eqb c "-" then EmptyString :: split_dash t
      else match split_dash t with
           | f :: fs => String c f :: fs
           | [] => [String c EmptyString]
           end
  end.

(** [%d]: [3[0-1]|[1-2]\d|0[1-9]|[1-9]| [1-9]], then [int]. *)
Definition field_d (f : string) : option Z :=
  match f with
  | String a EmptyString =>
      match digit a with
      | Some n => if 1 <=? n then Some n else None
      | None => None
      end
  | String a (String b EmptyString) =>
      match digit b with
      | None => None
      | Some nb =>
          if Ascii.eqb a " " then (if 1 <=? nb then Some nb else None)
          else
            match digit a with
            | Some na =>
                if (na =? 3) && (nb <=? 1)
                   || (1 <=? na) && (na <=? 2)
                   || (na =? 0) && (1 <=? nb)
                then Some (10 * na + nb)
                else None
            | None => None
            end
      end
  | _ => None
  end.

(** [%m]: [1[0-2]|0[1-9]|[1-9]], then [int]. *)
Definition field_m (f : string) : option Z :=
  match f with
  | String a EmptyString =>
      match digit a with
      | Some n => if 1 <=? n then Some n else None
      | None => None
      end
  | String a (String b EmptyString) =>
      match digit a, digit b with
      | Some na, Some nb =>
          if (na =? 1) && (nb <=? 2) || (na =? 0) && (1 <=? nb)
          then Some (10 * na + nb)
          else None
      | _, _ => None
      end
  | _ => None
  end.

(** [%Y]: [\d\d\d\d], then [int]. *)
Definition field_Y (f : string) : option Z :=
  match f with
  | String a (String b (String c (String d EmptyString))) =>
      match digit a, digit b, digit c, digit d with
      | Some na, Some nb, Some nc, Some nd =>
          Some (1000 * na + 100 * nb + 10 * nc + nd)
      | _, _, _, _ => None
      end
  | _ => None
  end.

Definition is_leap (y : Z) : bool :=
  (y mod 4 =? 0) && (negb (y mod 100 =? 0) || (y mod 400 =? 0)).

Definition days_in_month (y m : Z) : Z :=
  if m =? 2 then (if is_leap y then 29 else 28)
  else if (m =? 4) || (m =? 6) || (m =? 9) || (m =? 11) then 30
  else 31.

(** The range checks of the [date] constructor. *)
Definition valid (y m d : Z) : bool :=
  (1 <=? y) && (y <=? 9999) && (1 <=? m) && (m <=? 12)
  && (1 <=? d) && (d <=? days_in_month y m).

Definition make_date (y m d : Z) : option date :=
  if valid y m d then Some {| year := y; month := m; day := d |} else None.

(** [datetime.strptime(s, "%d-%m-%Y")]; [None] for the [ValueError]. *)
Definition strptime_dmY (s : string) : option date :=
  match split_dash s with
  | [fd; fm; fy] =>
      match field_d fd, field_m fm, field_Y fy with
      | Some d, Some m, Some y => make_date y m d
      | _, _, _ => None
      end
  | _ => None
  end.

(** [datetime.strptime(s, "%Y-%m-%d")] *)
Definition strptime_Ymd (s : string) : option date :=
  match split_dash s with
  | [fy; fm; fd] =>
      match field_Y fy, field_m fm, field_d fd with
      | Some y, Some m, Some d => make_date y m d
      | _, _, _ => None
      end
  | _ => None
  end.

(** [%d] and [%m] of [strftime]: two digits. *)
Definition pad2 (n : Z) : string :=
  if n <? 10 then "0" +:+ pretty n else pretty n.

(** [%Y] of [strftime] as the C library of Linux prints it: the year
    without padding. *)
Definition year_text (y : Z) : string := pretty y.

(** [d.strftime("%d-%m-%Y")] *)
Definition strftime_dmY (d : date) : string :=
  pad2 (day d) +:+ "-" +:+ pad2 (month d) +:+ "-" +:+ year_text (year d).

(** [d.strftime("%Y/%m/%d")] *)
Definition strftime_Ymd_slash (d : date) : string :=
  year_text (year d) +:+ "/" +:+ pad2 (month d) +:+ "/" +:+ pad2 (day d).

(** No character of [s] is a dash. *)
Fixpoint dashless (s : string) : bool :=
  match s with
  | EmptyString => true
  | String c t => negb (Ascii.eqb c "-") && dashless t
  end.

End Dates.

(** ** [app/services/spam_classifier.py] *)

Module SpamClassifier.
Import Py Text.

Section Classifier.
(** [self.classifier(prompt)[0]['generated_text']] *)
Variable generated_text : string -> string.

Definition prompt (sender subject : value) (body_snip : string) : string :=
  "Does the following email seem like spam?" +:+ nl +:+
  "Sender: " +:+ str sender +:+ nl +:+
  "Subject: " +:+ str subject +:+ nl +:+
  "Body: " +:+ body_snip +:+ nl +:+
  "Answer with one word: spam or not-spam.".

(** The label computed from the pipeline's raw output. *)
Definition label_of (raw : string) : string :=
  let output := lower (strip raw) in
  if contains "spam" output then "spam" else "not-spam".

Definition classify_email (sender subject body : value) : result string :=
  body_snip <- slice_to 256 (or_ body (PyStr "")) ;;
  ret (label_of (generated_text (prompt sender subject body_snip))).

End Classifier.

End SpamClassifier.

(** ** [app/services/gmail_service.py] *)

Module GmailService.
Import Py Text.

(** One entry of [payload["parts"]]: [part.get("mimeType", "")] and
    [part.get("body", {}).get("data")]. *)
Record part := {
  mimeType : string;
  part_data : option string
}.

(** [payload.get("parts", [])] and [payload.get("body", {}).get("data")]. *)
Record payload := {
  parts : option (list part);
  body_data : option string
}.

(** [if not data]: the key is missing, or maps to the empty string. *)
Definition present (data : option string) : option string :=
  match data with
  | None => None
  | Some d => if String.eqb d "" then None else Some d
  end.

Section Decoding.
(** [base64.urlsafe_b64decode(data).decode("utf-8", errors="ignore")];
    [None] when the call raises. *)
Variable b64_utf8 : string -> option string.
(** [BeautifulSoup(html, "html.parser").get_text(separator=" ", strip=True)] *)
Variable extract_text_from_html : string -> string.

(** The [for part in parts] loop; [None] when it runs to the end
    without returning. *)
Fixpoint scan_parts (ps : list part) : option string :=
  match ps with
  | [] => None
  | p :: rest =>
      match present (part_data p) with
      | None => scan_parts rest
      | Some data =>
          match b64_utf8 data with
          | None => scan_parts rest
          | Some decoded =>
              if String.eqb (mimeType p) "text/plain" then Some decoded
              else if String.eqb (mimeType p) "text/html"
                   then Some (extract_text_from_html decoded)
                   else scan_parts rest
          end
      end
  end.

Definition decode_email_body (pl : payload) : string :=
  let body_text := "" in
  match scan_parts (default [] (parts pl)) with
  | Some text => text
  | None =>
      match present (body_data pl) with
      | None => body_text
      | Some body_raw =>
          match b64_utf8 body_raw with
          | Some decoded => extract_text_from_html decoded
          | None => body_text
          end
      end
  end.

End Decoding.

Section Trash.
(** The remote mailbox, and
    [service.users().messages().trash(userId="me", id=msg_id).execute()]
    as a transition of it that returns or raises. *)
Variable mailbox : Type.
Variable trash : string -> mailbox -> mailbox * result unit.

(** The [for msg_id in message_ids] loop with its counter. *)
Fixpoint trash_loop (message_ids : list string) (count : nat) (mb : mailbox)
  : mailbox * result nat :=
  match message_ids with
  | [] => (mb, ret count)
  | msg_id :: rest =>
      match trash msg_id mb with
      | (mb', inl e) => (mb', raise e)
      | (mb', inr _) => trash_loop rest (count + 1)%nat mb'
      end
  end.

Definition move_emails_to_trash (message_ids : list string) (mb : mailbox)
  : mailbox * result nat :=
  trash_loop message_ids 0%nat mb.

(** Every call of the list succeeds, one after the other. *)
Inductive all_trashed : list string -> mailbox -> mailbox -> Prop :=
| all_trashed_nil mb : all_trashed [] mb mb
| all_trashed_cons msg_id rest mb mb1 mb2 :
    trash msg_id mb = (mb1, inr tt) ->
    all_trashed rest mb1 mb2 ->
    all_trashed (msg_id :: rest) mb mb2.

End Trash.

Inductive fetch_error :=
| BadDate (text : string)
| Upstream (e : exn).

(** [next((h["value"] for h in headers if h["name"] == wanted), "")];
    a header is the pair of its name and its value. *)
Fixpoint header_value (wanted : string) (headers : list (string * string))
  : string :=
  match headers with
  | [] => ""
  | h :: rest =>
      if String.eqb h.1 wanted then h.2 else header_value wanted rest
  end.

(** The [payload] of a fetched message: its headers and its body tree. *)
Record mail_message := {
  headers : list (string * string);
  content : payload
}.

(** The dict appended to [emails]. *)
Record email := {
  email_id : string;
  email_sender : string;
  email_subject : string;
  email_body : string
}.

(** The search query; a date that ["%d-%m-%Y"] does not parse raises. *)
Definition build_query (start_date end_date : string) : fetch_error + string :=
  match Dates.strptime_dmY start_date with
  | None => inl (BadDate start_date)
  | Some s =>
      match Dates.strptime_dmY end_date with
      | None => inl (BadDate end_date)
      | Some e =>
          inr ("after:" +:+ Dates.strftime_Ymd_slash s +:+
               " before:" +:+ Dates.strftime_Ymd_slash e)
      end
  end.

Section Fetch.
Variable b64_utf8 : string -> option string.
Variable extract_text_from_html : string -> string.
(** [messages().list(userId="me", q=query, maxResults=500).execute()],
    as the ids of [response.get("messages", [])]. *)
Variable list_messages : string -> result (list string).
(** [messages().get(userId="me", id=..., format="full").execute()] *)
Variable get_message : string -> result mail_message.

Definition read_email (msg_id : string) (msg : mail_message) : email :=
  {| email_id := msg_id;
     email_sender := header_value "From" (headers msg);
     email_subject := header_value "Subject" (headers msg);
     email_body :=
       decode_email_body b64_utf8 extract_text_from_html (content msg) |}.

(** The [for m in message_list] loop. *)
Fixpoint fetch_loop (message_ids : list string) : result (list email) :=
  match message_ids with
  | [] => ret []
  | msg_id :: rest =>
      match get_message msg_id with
      | inl e => raise e
      | inr msg =>
          match fetch_loop rest with
          | inl e => raise e
          | inr emails => ret (read_email msg_id msg :: emails)
          end
      end
  end.

Definition fetch_emails_by_date_range (start_date end_date : string)
  : fetch_error + list email :=
  match build_query start_date end_date with
  | inl bad => inl bad
  | inr query =>
      match list_messages query with
      | inl e => inl (Upstream e)
      | inr message_ids =>
          match fetch_loop message_ids with
          | inl e => inl (Upstream e)
          | inr emails => inr emails
          end
      end
  end.

End Fetch.

End GmailService.

(** ** [app/main.py]: the result cache and the trash handler *)

Module Main.
Import Py Text.

(** One element of the cached list: the dict built by
    [fetch_emails_by_date_range] and labelled by [fetch_emails], or a row
    of an uploaded sheet.  Both always carry ["id"]. *)
Record message := {
  id : value;
  sender : value;
  subject : value;
  body : value;
  prediction : option value
}.

(** A value of [email_cache]; times are microseconds. *)
Record entry := {
  emails : list message;
  source : string;
  created_at : Z;
  expires_at : Z
}.

(** [timedelta(hours=2)] *)
Definition two_hours : Z := 2 * 3600 * 1000000.

(** [now1] and [now2] are the two [dt.now()] readings of the dict
    display, in evaluation order. *)
Definition store_user_emails (now1 now2 : Z) (user_id : string)
    (mails : list message) (src : string) (email_cache : gmap string entry)
  : gmap string entry :=
  <[user_id := {| emails := mails; source := src;
                  created_at := now1; expires_at := now2 + two_hours |}]>
    email_cache.

Definition get_user_emails (now : Z) (user_id : string)
    (email_cache : gmap string entry)
  : gmap string entry * (option (list message) * option string) :=
  match email_cache !! user_id with
  | None => (email_cache, (None, None))
  | Some cached =>
      if expires_at cached <? now
      then (delete user_id email_cache, (None, None))
      else (email_cache, (Some (emails cached), Some (source cached)))
  end.

(** [now_at uid] is the [dt.now()] reading taken when the comprehension
    tests the entry of [uid]. *)
Definition expired_uids (now_at : string -> Z)
    (email_cache : gmap string entry) : list string :=
  (filter (fun kv => expires_at kv.2 < now_at kv.1)
          (map_to_list email_cache)).*1.

Definition cleanup_expired_cache (now_at : string -> Z)
    (email_cache : gmap string entry) : gmap string entry :=
  foldl (fun cache uid => delete uid cache) email_cache
        (expired_uids now_at email_cache).

(** [request.session.get("user_id")] is [session_user_id]. *)
Definition _get_active_results (now_at : string -> Z) (now : Z)
    (session_user_id : option string) (email_cache : gmap string entry)
  : gmap string entry * (option (list message) * option string) :=
  match GmailService.present session_user_id with
  | None => (email_cache, (None, None))
  | Some user_id =>
      get_user_emails now user_id (cleanup_expired_cache now_at email_cache)
  end.

(** The cache part of [logout]. *)
Definition logout (session_user_id : option string)
    (email_cache : gmap string entry) : gmap string entry :=
  match GmailService.present session_user_id with
  | None => email_cache
  | Some user_id =>
      match email_cache !! user_id with
      | Some _ => delete user_id email_cache
      | None => email_cache
      end
  end.

(** [cache_stats]: its sweep, and the ["cached_users"] count of its
    answer (the sizes and the per-entry list are left out). *)
Definition cache_stats (now_at : string -> Z)
    (email_cache : gmap string entry) : gmap string entry * nat :=
  let cache := cleanup_expired_cache now_at email_cache in
  (cache, size cache).

(** [str(e.get("prediction", "")).lower().strip() == "spam"] *)
Definition prediction_text (e : message) : string :=
  strip (lower (str (default (PyStr "") (prediction e)))).

Definition is_spam (e : message) : bool :=
  String.eqb (prediction_text e) "spam".

Definition spam_ids (mails : list message) : list string :=
  map (fun e => str (id e)) (filter (fun e => is_spam e = true) mails).

Record trash_report := {
  status : string;
  moved : nat;
  message_text : string;
  report_source : option string
}.

Inductive response :=
| HTTPException (status_code : Z) (detail : string)
| JSONResponse (content : trash_report).

Definition exn_text (e : exn) : string :=
  match e with
  | TypeError msg => msg
  | ApiError msg => msg
  end.

Definition not_found : response :=
  HTTPException 404 "No results found. Please run detection first.".

Definition zero_moved (src : option string) : response :=
  JSONResponse {| status := "success"; moved := 0;
                  message_text := "No spam emails to move";
                  report_source := src |}.

Definition moved_to_trash (n : nat) (src : option string) : response :=
  JSONResponse {| status := "success"; moved := n;
                  message_text := pretty n +:+ " mails have been moved to trash";
                  report_source := src |}.

Definition move_failed (e : exn) : response :=
  HTTPException 500 ("Failed to move emails: " +:+ exn_text e).

Section MoveToTrash.
Variable mailbox : Type.
Variable trash : string -> mailbox -> mailbox * result unit.

(** [authenticated] is [None] when [get_gmail_service_from_session]
    returns a service, and the exception it raises otherwise. *)
Definition move_to_trash (authenticated : option response)
    (now_at : string -> Z) (now : Z) (session_user_id : option string)
    (email_cache : gmap string entry) (mb : mailbox)
  : gmap string entry * mailbox * response :=
  match authenticated with
  | Some denied => (email_cache, mb, denied)
  | None =>
      let '(cache, (mails, src)) :=
        _get_active_results now_at now session_user_id email_cache in
      match mails with
      | None | Some [] => (cache, mb, not_found)
      | Some mails =>
          match spam_ids mails with
          | [] => (cache, mb, zero_moved src)
          | ids =>
              match GmailService.move_emails_to_trash mailbox trash ids mb with
              | (mb', inr n) => (cache, mb', moved_to_trash n src)
              | (mb', inl e) => (cache, mb', move_failed e)
              end
          end
      end
  end.

End MoveToTrash.

(** The operations that touch [email_cache], with the clock readings
    each one takes. *)
Inductive op :=
| Put (now1 now2 : Z) (user_id : string) (mails : list message) (src : string)
| Get (now : Z) (user_id : string)
| Sweep (now_at : string -> Z)
| Stats (now_at : string -> Z)
| Active (now_at : string -> Z) (now : Z) (session_user_id : option string)
| Logout (session_user_id : option string).

(** The operations that only read. *)
Definition is_read (o : op) : bool :=
  match o with
  | Get _ _ | Sweep _ | Stats _ | Active _ _ _ => true
  | Put _ _ _ _ _ | Logout _ => false
  end.

Definition step (email_cache : gmap string entry) (o : op) : gmap string entry :=
  match o with
  | Put now1 now2 user_id mails src =>
      store_user_emails now1 now2 user_id mails src email_cache
  | Get now user_id => (get_user_emails now user_id email_cache).1
  | Sweep now_at => cleanup_expired_cache now_at email_cache
  | Stats now_at => (cache_stats now_at email_cache).1
  | Active now_at now uid => (_get_active_results now_at now uid email_cache).1
  | Logout uid => logout uid email_cache
  end.

(** The operation leaves alone an entry of [uid] that expires at [limit]:
    it is no put or logout for [uid], and whenever it compares the clock
    with that entry the reading is not after [limit]. *)
Definition undisturbed (uid : string) (limit : Z) (o : op) : Prop :=
  match o with
  | Put _ _ user_id _ _ => user_id <> uid
  | Get now user_id => user_id = uid -> now <= limit
  | Sweep now_at | Stats now_at => now_at uid <= limit
  | Active now_at now session_user_id =>
      now_at uid <= limit /\
      (GmailService.present session_user_id = Some uid -> now <= limit)
  | Logout session_user_id => GmailService.present session_user_id <> Some uid
  end.

(** The cache after a run of operations from the empty dict of module
    load. *)
Definition run (ops : list op) : gmap string entry := foldl step ∅ ops.

Definition bad_dates : response + string :=
  inl (HTTPException 400 "Dates must be DD-MM-YYYY or YYYY-MM-DD").

(** [normalize] of [fetch_emails]: the first of ["%d-%m-%Y"] and
    ["%Y-%m-%d"] that parses, printed as ["%d-%m-%Y"]. *)
Definition normalize (s : string) : response + string :=
  match Dates.strptime_dmY s with
  | Some d => inr (Dates.strftime_dmY d)
  | None =>
      match Dates.strptime_Ymd s with
      | Some d => inr (Dates.strftime_dmY d)
      | None => bad_dates
      end
  end.

(** [fresh] is the [str(uuid.uuid4())] the call would draw; the result is
    the session's ["user_id"] afterwards and the id returned. *)
Definition get_or_create_user_id (fresh : string)
    (session_user_id : option string) : option string * string :=
  match session_user_id with
  | Some user_id => (Some user_id, user_id)
  | None => (Some fresh, fresh)
  end.

(** [s.endswith(suffix)] *)
Fixpoint endswith (suffix s : string) : bool :=
  String.eqb s suffix
  || match s with
     | EmptyString => false
     | String _ t => endswith suffix t
     end.

(** What [fetch_emails] and [upload_corrections] answer: an
    [HTTPException] of the handler, the 500 that wraps a failed Gmail
    fetch, the 400 that wraps a failure while the sheet is processed, the
    no-emails JSON, the result page (or JSON) with its two counts, or an
    exception nothing catches. *)
Inductive reply :=
| Refused (r : response)
| FetchFailed (e : GmailService.fetch_error)
| ProcessFailed
| Empty
| Results (total spam : nat)
| Unhandled (e : exn).

(** The dict of the Gmail client after [email["prediction"] = label]. *)
Definition labelled (e : GmailService.email) (label : string) : message :=
  {| id := PyStr (GmailService.email_id e);
     sender := PyStr (GmailService.email_sender e);
     subject := PyStr (GmailService.email_subject e);
     body := PyStr (GmailService.email_body e);
     prediction := Some (PyStr label) |}.

(** The message carries one of the classifier's two labels. *)
Definition labelled_by_model (m : message) : Prop :=
  prediction m = Some (PyStr "spam") \/ prediction m = Some (PyStr "not-spam").

(** The parsed upload: the header cells of [pd.read_excel] and the rows
    as [df.to_dict(orient='records')] gives them. *)
Record sheet := {
  columns : list string;
  records : list message
}.

Definition has_column (wanted : string) (cols : list string) : bool :=
  existsb (String.eqb wanted) cols.

(** The two JSON bodies of [spam_summary]. *)
Record summary := {
  count : nat;
  total : nat;
  not_spam : option nat;
  summary_source : option string
}.

Definition spam_summary (now_at : string -> Z) (now : Z)
    (session_user_id : option string) (email_cache : gmap string entry)
  : gmap string entry * summary :=
  let '(cache, (mails, src)) :=
    _get_active_results now_at now session_user_id email_cache in
  match mails with
  | None | Some [] =>
      (cache, {| count := 0; total := 0; not_spam := None;
                 summary_source := Some "model prediction" |})
  | Some mails =>
      let spam_count := length (filter (fun e => is_spam e = true) mails) in
      (cache, {| count := spam_count; total := length mails;
                 not_spam := Some (length mails - spam_count)%nat;
                 summary_source := src |})
  end.

Definition upload_corrections (filename : string) (read_excel : result sheet)
    (page_found : bool) (now1 now2 : Z) (session_user_id : option string)
    (email_cache : gmap string entry) : gmap string entry * reply :=
  if negb (endswith ".xlsx" (lower filename))
  then (email_cache, Refused (HTTPException 400 "Please upload an .xlsx file."))
  else
    match GmailService.present session_user_id with
    | None =>
        (email_cache,
         Refused (HTTPException 401
                    "No active session. Please run detection first."))
    | Some user_id =>
        match read_excel with
        | inl _ => (email_cache, ProcessFailed)
        | inr df =>
            let cols := map (fun c => lower (strip c)) (columns df) in
            if has_column "id" cols && has_column "prediction" cols then
              let corrected_emails := records df in
              let cache :=
                store_user_emails now1 now2 user_id corrected_emails
                  "user corrected" email_cache in
              let spam_count :=
                length (filter (fun e => is_spam e = true) corrected_emails) in
              if page_found
              then (cache, Results (length corrected_emails) spam_count)
              else (cache, ProcessFailed)
            else (email_cache, ProcessFailed)
        end
    end.

Section FetchEmails.
(** [spam_classifier.classifier(prompt)[0]['generated_text']] *)
Variable generated_text : string -> string.
(** [gmail_service.fetch_emails_by_date_range] *)
Variable fetch : string -> string -> GmailService.fetch_error + list GmailService.email.

(** The [for email in emails] loop with its counter. *)
Fixpoint classify_loop (mails : list GmailService.email) (spam_count : nat)
  : result (list message * nat) :=
  match mails with
  | [] => ret ([], spam_count)
  | e :: rest =>
      match SpamClassifier.classify_email generated_text
              (PyStr (GmailService.email_sender e))
              (PyStr (GmailService.email_subject e))
              (PyStr (GmailService.email_body e)) with
      | inl err => raise err
      | inr label =>
          let spam_count :=
            if String.eqb (lower label) "spam" then S spam_count
            else spam_count in
          match classify_loop rest spam_count with
          | inl err => raise err
          | inr (classified, n) => ret (labelled e label :: classified, n)
          end
      end
  end.

Definition fetch_emails (authenticated : option response) (fresh : string)
    (now1 now2 : Z) (start_date end_date : string)
    (session_user_id : option string) (email_cache : gmap string entry)
  : option string * gmap string entry * reply :=
  match authenticated with
  | Some denied => (session_user_id, email_cache, Refused denied)
  | None =>
      let '(session, user_id) := get_or_create_user_id fresh session_user_id in
      match normalize start_date with
      | inl bad => (session, email_cache, Refused bad)
      | inr sd =>
          match normalize end_date with
          | inl bad => (session, email_cache, Refused bad)
          | inr ed =>
              match fetch sd ed with
              | inl e => (session, email_cache, FetchFailed e)
              | inr [] => (session, email_cache, Empty)
              | inr mails =>
                  match classify_loop mails 0%nat with
                  | inl err => (session, email_cache, Unhandled err)
                  | inr (classified, spam_count) =>
                      (session,
                       store_user_emails now1 now2 user_id classified
                         "model prediction" email_cache,
                       Results (length mails) spam_count)
                  end
              end
          end
      end
  end.

End FetchEmails.

End Main.

(** ** Statements of the specification used for comparison *)

Module Spec.
Import Py Text GmailService.

(** [hay] has [needle] as a substring. *)
Definition has_substring (needle hay : string) : Prop :=
  exists pre post, hay = pre +:+ needle +:+ post.

(** The character is the letter [lo] or its capital [up]. *)
Definition either (lo up c : ascii) : Prop := c = lo \/ c = up.

(** The four letters s, p, a, m in this order, each in either case. *)
Definition spam_any_case (w : string) : Prop :=
  exists c1 c2 c3 c4,
    w = String c1 (String c2 (String c3 (String c4 EmptyString))) /\
    either "s" "S" c1 /\ either "p" "P" c2 /\
    either "a" "A" c3 /\ either "m" "M" c4.

(** The text holds the word spam somewhere, in any mix of cases. *)
Definition mentions_spam (raw : string) : Prop :=
  exists pre w post, raw = pre +:+ w +:+ post /\ spam_any_case w.

(** The loop passes over the part: it carries no data, its data does
    not decode, or it is neither text/plain nor text/html. *)
Definition skipped (b64_utf8 : string -> option string) (p : part) : Prop :=
  match present (part_data p) with
  | None => True
  | Some data =>
      match b64_utf8 data with
      | None => True
      | Some _ => mimeType p <> "text/plain" /\ mimeType p <> "text/html"
      end
  end.

(** The decoded text of the first text/plain part that decodes, as the
    specification's preference rule reads it. *)
Fixpoint first_plain (b64_utf8 : string -> option string) (ps : list part)
  : option string :=
  match ps with
  | [] => None
  | p :: rest =>
      if String.eqb (mimeType p) "text/plain" then
        match present (part_data p) with
        | Some data =>
            match b64_utf8 data with
            | Some decoded => Some decoded
            | None => first_plain b64_utf8 rest
            end
        | None => first_plain b64_utf8 rest
        end
      else first_plain b64_utf8 rest
  end.

End Spec.

(** ** Concrete inputs *)

Module Samples.
Import Py Text GmailService Main.

(** The decoder on four inputs: three encodings and one string with
    incorrect padding. *)
Definition b64_utf8 (data : string) : option string :=
  if String.eqb data "aGVsbG8=" then Some "hello"
  else if String.eqb data "PGI-aGk8L2I-" then Some "<b>hi</b>"
  else if String.eqb data "PHA-dG9wPC9wPg==" then Some "<p>top</p>"
  else None.

Definition extract_text_from_html (html : string) : string :=
  if String.eqb html "<b>hi</b>" then "hi"
  else if String.eqb html "<p>top</p>" then "top"
  else html.

Definition html_part : part :=
  {| mimeType := "text/html"; part_data := Some "PGI-aGk8L2I-" |}.
Definition plain_part : part :=
  {| mimeType := "text/plain"; part_data := Some "aGVsbG8=" |}.
Definition broken_part : part :=
  {| mimeType := "text/plain"; part_data := Some "abc" |}.
Definition container_part : part :=
  {| mimeType := "multipart/alternative"; part_data := None |}.

Definition html_then_plain : payload :=
  {| parts := Some [html_part; plain_part]; body_data := None |}.
Definition plain_after_skipped : payload :=
  {| parts := Some [container_part; broken_part; plain_part; html_part];
     body_data := Some "PHA-dG9wPC9wPg==" |}.
Definition only_top_level : payload :=
  {| parts := Some [container_part; broken_part];
     body_data := Some "PHA-dG9wPC9wPg==" |}.

(** A mailbox that records the trashed ids, newest first, and has no
    message called [gone]. *)
Definition trash (msg_id : string) (mb : list string)
  : list string * result unit :=
  if String.eqb msg_id "gone"
  then (mb, raise (ApiError "Requested entity was not found."))
  else (msg_id :: mb, ret tt).

Definition mail (i : string) (p : option value) : message :=
  {| id := PyStr i; sender := PyStr "a@example.com"; subject := PyStr "Hi";
     body := PyStr "text"; prediction := p |}.

(** The predictions ["spam", "Spam ", "not-spam", ""]. *)
Definition four_mails : list message :=
  [ mail "m1" (Some (PyStr "spam")); mail "m2" (Some (PyStr "Spam "));
    mail "m3" (Some (PyStr "not-spam")); mail "m4" (Some (PyStr "")) ].

Definition ham_mails : list message :=
  [ mail "m3" (Some (PyStr "not-spam")); mail "m4" None ].

Definition clock (t : Z) : string -> Z := fun _ => t.

(** A mailbox with two messages in June 2024. *)
Definition list_messages (query : string) : result (list string) :=
  if String.eqb query "after:2024/06/05 before:2024/07/01"
  then ret ["m1"; "m2"]
  else ret [].

Definition get_message (msg_id : string) : result mail_message :=
  if String.eqb msg_id "m1" then
    ret {| headers := [("subject", "lower case"); ("Subject", "Win prize");
                       ("From", "a@example.com"); ("Subject", "second")];
           content := plain_after_skipped |}
  else if String.eqb msg_id "m2" then
    ret {| headers := []; content := only_top_level |}
  else raise (ApiError "Requested entity was not found.").

(** A model that answers " Spam" when the prompt mentions a prize. *)
Definition generated_text (prompt : string) : string :=
  if contains "prize" prompt then " Spam" else "ham".

(** An uploaded sheet whose header cells need trimming and lower-casing. *)
Definition corrections : sheet :=
  {| columns := [" ID "; "Prediction"; "notes"]; records := four_mails |}.

(** Three messages marked spam, the second one no longer in the mailbox. *)
Definition spam_with_gone : list message :=
  [ mail "m1" (Some (PyStr "spam")); mail "gone" (Some (PyStr "SPAM"));
    mail "m3" (Some (PyStr "spam")) ].

(** 256 times the letter x. *)
Definition filler : string :=
  string_of_list_ascii (repeat "x"%char 256).

Definition fetch : string -> string -> fetch_error + list email :=
  fetch_emails_by_date_range b64_utf8 extract_text_from_html
    list_messages get_message.

End Samples.

(** * Properties *)

(** ** Strings *)

Section TextFacts.
Import Text Spec.

Lemma append_nil_l (s : string) : "" +:+ s = s.
Proof. reflexivity. Qed.

Lemma append_cons (c : ascii) (t s : string) :
  String c t +:+ s = String c (t +:+ s).
Proof. reflexivity. Qed.

Lemma append_empty_r (s : string) : s +:+ "" = s.
Proof.
  induction s as [|c t IH]; [reflexivity |].
  now rewrite append_cons, IH.
Qed.

Lemma append_assoc (a b c : string) : (a +:+ b) +:+ c = a +:+ (b +:+ c).
Proof.
  induction a as [|x t IH]; [reflexivity |].
  now rewrite !append_cons, IH.
Qed.

Lemma prefix_append (needle hay : string) :
  String.prefix needle hay = true <-> exists post, hay = needle +:+ post.
Proof.
  revert hay. induction needle as [|a n IH]; intros hay.
  - split; [intros _; now exists hay | now destruct hay].
  - destruct hay as [|b h]; simpl.
    + split; [discriminate | intros [post H]; discriminate].
    + destruct (ascii_dec a b) as [->|Hab].
      * rewrite IH. split; intros [post H]; exists post.
        -- now rewrite append_cons, H.
        -- rewrite append_cons in H. now injection H.
      * split; [discriminate |].
        intros [post H]. rewrite append_cons in H. injection H. congruence.
Qed.

Lemma prefix_has_substring (needle hay : string) :
  String.prefix needle hay = true -> has_substring needle hay.
Proof.
  intros [post H]%prefix_append. exists "", post. now rewrite append_nil_l.
Qed.

Lemma contains_substring (needle hay : string) :
  contains needle hay = true <-> has_substring needle hay.
Proof.
  induction hay as [|c h IH].
  - unfold contains. destruct (String.prefix needle "") eqn:Hp.
    + split; [intros _; now apply prefix_has_substring | reflexivity].
    + split; [discriminate |].
      intros (pre & post & H). destruct pre; [| discriminate].
      rewrite append_nil_l in H.
      assert (String.prefix needle "" = true) as Hq
        by (apply prefix_append; now exists post).
      congruence.
  - change (contains needle (String c h))
      with (if String.prefix needle (String c h) then true
            else contains needle h).
    destruct (String.prefix needle (String c h)) eqn:Hp.
    + split; [intros _; now apply prefix_has_substring | reflexivity].
    + rewrite IH. split; intros (pre & post & H).
      * exists (String c pre), post. now rewrite append_cons, H.
      * destruct pre as [|x pre].
        -- rewrite append_nil_l in H.
           assert (String.prefix needle (String c h) = true) as Hq
             by (apply prefix_append; now exists post).
           congruence.
        -- rewrite append_cons in H. injection H as _ H. now exists pre, post.
Qed.

Lemma isspace_lower_char (c : ascii) : isspace (lower_char c) = isspace c.
Proof. destruct c as [[] [] [] [] [] [] [] []]; reflexivity. Qed.

Lemma lower_lstrip (s : string) : lower (lstrip s) = lstrip (lower s).
Proof.
  induction s as [|c t IH]; simpl; [reflexivity |].
  rewrite isspace_lower_char. now destruct (isspace c).
Qed.

Lemma lower_rstrip (s : string) : lower (rstrip s) = rstrip (lower s).
Proof.
  induction s as [|c t IH]; simpl; [reflexivity |].
  rewrite <- IH, isspace_lower_char.
  destruct (rstrip t); simpl; [now destruct (isspace c) | reflexivity].
Qed.

Lemma lower_strip (s : string) : lower (strip s) = strip (lower s).
Proof. unfold strip. now rewrite lower_rstrip, lower_lstrip. Qed.

Lemma lstrip_blank_app (l s : string) :
  blank l = true -> lstrip (l +:+ s) = lstrip s.
Proof.
  induction l as [|c l IH]; [reflexivity |].
  simpl. intros [Hc Hl]%andb_true_iff. rewrite Hc. auto.
Qed.

Lemma lstrip_split (s : string) :
  exists l, blank l = true /\ s = l +:+ lstrip s.
Proof.
  induction s as [|c t (l & Hl & IH)]; [now exists "" |].
  simpl. destruct (isspace c) eqn:Hc.
  - exists (String c l). simpl. rewrite Hc, Hl, append_cons.
    split; [reflexivity | now f_equal].
  - now exists "".
Qed.

Lemma rstrip_blank (r : string) : blank r = true -> rstrip r = "".
Proof.
  induction r as [|c r IH]; [reflexivity |].
  simpl. intros [Hc Hr]%andb_true_iff. now rewrite IH, Hc.
Qed.

Lemma rstrip_app_blank (s r : string) :
  blank r = true -> rstrip (s +:+ r) = rstrip s.
Proof.
  intros Hr. induction s as [|c t IH].
  - rewrite append_nil_l. now apply rstrip_blank.
  - rewrite append_cons. simpl. now rewrite IH.
Qed.

Lemma rstrip_split (s : string) :
  exists r, blank r = true /\ s = rstrip s +:+ r.
Proof.
  induction s as [|c t (r & Hr & IH)]; [now exists "" |].
  simpl. destruct (rstrip t) as [|x u] eqn:Ht.
  - rewrite append_nil_l in IH. subst t.
    destruct (isspace c) eqn:Hc.
    + exists (String c r). simpl. now rewrite Hc, Hr.
    + exists r. now rewrite append_cons.
  - exists r. split; [assumption |]. rewrite append_cons. now f_equal.
Qed.

(** What [strip] removes is white space on both sides, and nothing else. *)
Lemma strip_split (s : string) :
  exists l r, blank l = true /\ blank r = true /\ s = l +:+ strip s +:+ r.
Proof.
  destruct (lstrip_split s) as (l & Hl & Hs).
  destruct (rstrip_split (lstrip s)) as (r & Hr & Ht).
  exists l, r. unfold strip. now rewrite <- Ht.
Qed.

Lemma strip_eq_spam (s : string) :
  strip s = "spam" <->
  exists l r, blank l = true /\ blank r = true /\ s = l +:+ "spam" +:+ r.
Proof.
  split.
  - intros H. destruct (strip_split s) as (l & r & Hl & Hr & Hs).
    exists l, r. now rewrite <- H.
  - intros (l & r & Hl & Hr & ->). unfold strip.
    rewrite lstrip_blank_app by assumption.
    change (lstrip ("spam" +:+ r)) with ("spam" +:+ r).
    now rewrite rstrip_app_blank.
Qed.

Lemma length_substring_le (n : nat) (s : string) :
  (String.length (substring 0 n s) <= n)%nat.
Proof.
  revert n. induction s as [|c t IH]; intros [|n]; simpl; try lia.
  specialize (IH n). lia.
Qed.

Lemma lower_app (a b : string) : lower (a +:+ b) = lower a +:+ lower b.
Proof.
  induction a as [|c a IH]; [reflexivity |].
  rewrite append_cons. simpl. now rewrite IH, append_cons.
Qed.

Lemma lower_split (s a b : string) :
  lower s = a +:+ b ->
  exists a' b', s = a' +:+ b' /\ lower a' = a /\ lower b' = b.
Proof.
  revert s. induction a as [|x a IH]; intros s H.
  - exists "", s. now rewrite append_nil_l in *.
  - rewrite append_cons in H. destruct s as [|c t]; [discriminate |].
    simpl in H. injection H as Hc Ht.
    destruct (IH t Ht) as (a' & b' & -> & Ha & Hb).
    exists (String c a'), b'. rewrite append_cons. simpl.
    now rewrite Hc, Ha.
Qed.

Ltac letter_cases c H :=
  destruct c as [[] [] [] [] [] [] [] []]; vm_compute in H;
  try discriminate H; unfold either; auto.

Lemma lower_char_s (c : ascii) : lower_char c = "s"%char -> either "s" "S" c.
Proof. intros H. letter_cases c H. Qed.

Lemma lower_char_p (c : ascii) : lower_char c = "p"%char -> either "p" "P" c.
Proof. intros H. letter_cases c H. Qed.

Lemma lower_char_a (c : ascii) : lower_char c = "a"%char -> either "a" "A" c.
Proof. intros H. letter_cases c H. Qed.

Lemma lower_char_m (c : ascii) : lower_char c = "m"%char -> either "m" "M" c.
Proof. intros H. letter_cases c H. Qed.

Lemma lower_spam (w : string) : lower w = "spam" <-> spam_any_case w.
Proof.
  split.
  - destruct w as [|c1 [|c2 [|c3 [|c4 [|c5 w]]]]]; try discriminate.
    simpl. intros [= H1 H2 H3 H4].
    exists c1, c2, c3, c4. split; [reflexivity |].
    auto using lower_char_s, lower_char_p, lower_char_a, lower_char_m.
  - intros (c1 & c2 & c3 & c4 & -> & [-> | ->] & [-> | ->] & [-> | ->] & [-> | ->]);
      reflexivity.
Qed.

Lemma has_substring_lower (s : string) :
  has_substring "spam" (lower s) <-> mentions_spam s.
Proof.
  unfold has_substring, mentions_spam. split.
  - intros (pre & post & H).
    apply lower_split in H as (pre' & rest & -> & _ & Hrest).
    apply lower_split in Hrest as (w & post' & -> & Hw & _).
    exists pre', w, post'. split; [reflexivity | now apply lower_spam].
  - intros (pre & w & post & -> & Hw%lower_spam).
    exists (lower pre), (lower post). now rewrite !lower_app, Hw.
Qed.

Lemma contains_cons (needle : string) (c : ascii) (t : string) :
  contains needle (String c t)
  = String.prefix needle (String c t) || contains needle t.
Proof.
  change (contains needle (String c t))
    with (if String.prefix needle (String c t) then true
          else contains needle t).
  now destruct (String.prefix needle (String c t)).
Qed.

Lemma rstrip_cons_nonspace (c : ascii) (t : string) :
  isspace c = false -> rstrip (String c t) = String c (rstrip t).
Proof. intros Hc. simpl. rewrite Hc. now destruct (rstrip t). Qed.

Lemma contains_spam_lstrip (s : string) :
  contains "spam" s = true -> contains "spam" (lstrip s) = true.
Proof.
  induction s as [|c t IH]; [discriminate |].
  intros H. simpl lstrip. destruct (isspace c) eqn:Hc; [| exact H].
  apply IH. rewrite contains_cons in H.
  apply orb_true_iff in H as [Hp | Ht]; [| exact Ht].
  apply prefix_append in Hp as [post Hp].
  change ("spam" +:+ post)
    with (String "s" (String "p" (String "a" (String "m" post)))) in Hp.
  injection Hp as -> _. vm_compute in Hc. discriminate Hc.
Qed.

Lemma contains_spam_rstrip (s : string) :
  contains "spam" s = true -> contains "spam" (rstrip s) = true.
Proof.
  induction s as [|c t IH]; [discriminate |].
  intros H. rewrite contains_cons in H.
  apply orb_true_iff in H as [Hp | Ht].
  - apply prefix_append in Hp as [post Hp]. rewrite Hp.
    change ("spam" +:+ post)
      with (String "s" (String "p" (String "a" (String "m" post)))).
    rewrite !rstrip_cons_nonspace by reflexivity.
    apply contains_substring. now exists "", (rstrip post).
  - specialize (IH Ht). simpl.
    destruct (rstrip t) as [|x u] eqn:Hr; [discriminate |].
    rewrite contains_cons, IH. apply orb_true_r.
Qed.

Lemma has_substring_strip (s : string) :
  has_substring "spam" (strip s) <-> has_substring "spam" s.
Proof.
  split.
  - intros (pre & post & H).
    destruct (strip_split s) as (l & r & _ & _ & Hs).
    exists (l +:+ pre), (post +:+ r).
    rewrite Hs, H. now rewrite !append_assoc.
  - intros H%contains_substring. apply contains_substring.
    unfold strip. now apply contains_spam_rstrip, contains_spam_lstrip.
Qed.

(** What the classifier looks for in the raw output of the model. *)
Lemma normalised_mentions_spam (raw : string) :
  has_substring "spam" (lower (strip raw)) <-> mentions_spam raw.
Proof.
  now rewrite lower_strip, has_substring_strip, has_substring_lower.
Qed.

End TextFacts.

(** ** The classifier *)

Section ClassifierFacts.
Import Py Text Spec SpamClassifier.

Variable generated_text : string -> string.

Lemma label_of_cases (raw : string) :
  label_of raw = "spam" \/ label_of raw = "not-spam".
Proof. unfold label_of. destruct (contains _ _); auto. Qed.

Lemma classify_email_label (sender subject body : value) (snip : string) :
  slice_to 256 (or_ body (PyStr "")) = inr snip ->
  classify_email generated_text sender subject body
  = inr (label_of (generated_text (prompt sender subject snip))).
Proof. unfold classify_email. now intros ->. Qed.

(** C1: the label is "spam" exactly when the lower-cased, trimmed output
    of the model has "spam" as a substring, and "not-spam" otherwise; the
    two normalisations commute.  In terms of the raw output: the label is
    "spam" exactly when the output holds the letters s, p, a, m in a row,
    each in either case, wherever they stand; a model output of "not-spam"
    is therefore labelled "spam". *)
Theorem classify_email_substring (sender subject body : value) (snip : string) :
  slice_to 256 (or_ body (PyStr "")) = inr snip ->
  let raw := generated_text (prompt sender subject snip) in
  let output := lower (strip raw) in
  output = strip (lower raw) /\
  (has_substring "spam" output ->
   classify_email generated_text sender subject body = inr "spam") /\
  (~ has_substring "spam" output ->
   classify_email generated_text sender subject body = inr "not-spam") /\
  (raw = "not-spam" ->
   classify_email generated_text sender subject body = inr "spam") /\
  (mentions_spam raw ->
   classify_email generated_text sender subject body = inr "spam") /\
  (~ mentions_spam raw ->
   classify_email generated_text sender subject body = inr "not-spam").
Proof.
  intros Hs raw output.
  rewrite (classify_email_label _ _ _ _ Hs). fold raw.
  unfold label_of. fold output.
  split; [apply lower_strip |].
  pose proof (normalised_mentions_spam raw) as Hraw. fold output in Hraw.
  destruct (contains "spam" output) eqn:Hc.
  - apply contains_substring in Hc.
    repeat split; try reflexivity; intros Hno; exfalso; tauto.
  - assert (~ has_substring "spam" output) as Hno
      by (intros Hsub%contains_substring; congruence).
    repeat split; try reflexivity.
    + intros Hsub. contradiction.
    + intros Heq. exfalso. apply Hno. subst output. rewrite Heq.
      apply contains_substring. reflexivity.
    + intros Hm. exfalso. tauto.
Qed.

(** C10: with an optional body the call never raises: [None] and the
    empty string both give the empty snippet, a string gives its first
    256 characters, and the result is one of the two labels. *)
Theorem classify_email_total (sender subject : value) (body : option string) :
  (exists snip,
      slice_to 256 (or_ (optional body) (PyStr "")) = inr snip /\
      snip = substring 0 256 (default "" body) /\
      (String.length snip <= 256)%nat /\
      classify_email generated_text sender subject (optional body)
      = inr (label_of (generated_text (prompt sender subject snip)))) /\
  (classify_email generated_text sender subject (optional body) = inr "spam" \/
   classify_email generated_text sender subject (optional body) = inr "not-spam") /\
  classify_email generated_text sender subject PyNone
  = classify_email generated_text sender subject (PyStr "").
Proof.
  assert (slice_to 256 (or_ (optional body) (PyStr ""))
          = inr (substring 0 256 (default "" body))) as Hs.
  { destruct body as [[|c t]|]; reflexivity. }
  split; [| split].
  - eexists. split; [exact Hs |]. split; [reflexivity |].
    split; [apply length_substring_le | now apply classify_email_label].
  - rewrite (classify_email_label _ _ _ _ Hs).
    destruct (label_of_cases
                (generated_text
                   (prompt sender subject (substring 0 256 (default "" body)))))
      as [-> | ->]; auto.
  - reflexivity.
Qed.

End ClassifierFacts.

Lemma classify_email_substring_witness :
  SpamClassifier.classify_email (fun _ => " Not-SPAM ")
    (Py.PyStr "a@example.com") (Py.PyStr "Win prize") (Py.PyStr "Free money offer...")
  = inr "spam".
Proof.
  destruct (classify_email_substring (fun _ => " Not-SPAM ")
              (Py.PyStr "a@example.com") (Py.PyStr "Win prize")
              (Py.PyStr "Free money offer...") "Free money offer..." eq_refl)
    as (_ & _ & _ & _ & Hany & _).
  apply Hany. exists " Not-", "SPAM", " ". split; [reflexivity |].
  exists "S"%char, "P"%char, "A"%char, "M"%char.
  split; [reflexivity |]. repeat split; right; reflexivity.
Defined.

(** Slicing [None] itself raises: the substitution is what keeps the call
    from failing. *)
Example slice_none_raises :
  Py.slice_to 256 Py.PyNone
  = inl (Py.TypeError "'NoneType' object is not subscriptable").
Proof. reflexivity. Qed.

Example classify_email_not_spam :
  SpamClassifier.classify_email (fun _ => " Ham ")
    (Py.PyStr "a@example.com") (Py.PyStr "Hi") Py.PyNone
  = inr "not-spam".
Proof. reflexivity. Qed.

(** ** Body decoding *)

Section DecodingFacts.
Import Py Text Spec GmailService.

Variable b64_utf8 : string -> option string.
Variable extract_text_from_html : string -> string.

Abbreviation scan := (scan_parts b64_utf8 extract_text_from_html).
Abbreviation decode := (decode_email_body b64_utf8 extract_text_from_html).

Lemma scan_parts_skip (p : part) (rest : list part) :
  skipped b64_utf8 p -> scan (p :: rest) = scan rest.
Proof.
  unfold skipped. simpl.
  destruct (present (part_data p)) as [data|]; [| reflexivity].
  destruct (b64_utf8 data) as [decoded|]; [| reflexivity].
  intros [Hplain Hhtml].
  apply String.eqb_neq in Hplain, Hhtml. now rewrite Hplain, Hhtml.
Qed.

Lemma scan_parts_skipped (ps rest : list part) :
  Forall (skipped b64_utf8) ps -> scan (ps ++ rest) = scan rest.
Proof.
  induction 1 as [|p ps Hp _ IH]; [reflexivity |].
  change ((p :: ps) ++ rest) with (p :: (ps ++ rest)).
  now rewrite scan_parts_skip.
Qed.

Lemma scan_parts_none (ps : list part) :
  Forall (skipped b64_utf8) ps -> scan ps = None.
Proof.
  intros H. rewrite <- (app_nil_r ps). now rewrite scan_parts_skipped.
Qed.

Lemma scan_parts_hit (p : part) (rest : list part) (data decoded : string) :
  present (part_data p) = Some data ->
  b64_utf8 data = Some decoded ->
  (mimeType p = "text/plain" -> scan (p :: rest) = Some decoded) /\
  (mimeType p = "text/html" ->
   scan (p :: rest) = Some (extract_text_from_html decoded)).
Proof.
  intros Hd Hb. simpl. rewrite Hd, Hb. split; intros ->; reflexivity.
Qed.

(** C2, as the loop is written: the body is the text of the first part,
    in list order, that carries data, decodes and is text/plain (verbatim)
    or text/html (markup stripped); parts without data, parts that fail to
    decode and parts of other types are passed over; when the loop finds
    no such part the top-level body is decoded as HTML, and when that is
    missing or fails too the body is empty. *)
Theorem decode_email_body_first_usable (pl : payload) :
  (forall ps1 p ps2 data decoded,
      default [] (parts pl) = ps1 ++ p :: ps2 ->
      Forall (skipped b64_utf8) ps1 ->
      present (part_data p) = Some data ->
      b64_utf8 data = Some decoded ->
      (mimeType p = "text/plain" -> decode pl = decoded) /\
      (mimeType p = "text/html" ->
       decode pl = extract_text_from_html decoded)) /\
  (Forall (skipped b64_utf8) (default [] (parts pl)) ->
   (forall body_raw decoded,
       present (body_data pl) = Some body_raw ->
       b64_utf8 body_raw = Some decoded ->
       decode pl = extract_text_from_html decoded) /\
   (forall body_raw,
       present (body_data pl) = Some body_raw ->
       b64_utf8 body_raw = None ->
       decode pl = "") /\
   (present (body_data pl) = None -> decode pl = "")).
Proof.
  unfold decode_email_body. split.
  - intros ps1 p ps2 data decoded Hps Hskip Hd Hb.
    rewrite Hps, scan_parts_skipped by assumption.
    destruct (scan_parts_hit p ps2 data decoded Hd Hb) as [Hplain Hhtml].
    split; intros Hm; [rewrite (Hplain Hm) | rewrite (Hhtml Hm)]; reflexivity.
  - intros Hskip. rewrite scan_parts_none by assumption.
    repeat split.
    + intros body_raw decoded -> Hb. now rewrite Hb.
    + intros body_raw -> Hb. now rewrite Hb.
    + now intros ->.
Qed.

(** A text/plain part wins over text/html parts that come after it, and
    over earlier ones only when the loop passes over them. *)
Lemma first_plain_skipped (ps : list part) (text : string) :
  first_plain b64_utf8 ps = Some text ->
  (forall p, p ∈ ps -> mimeType p = "text/html" -> skipped b64_utf8 p) ->
  scan ps = Some text.
Proof.
  induction ps as [|p ps IH]; [discriminate |].
  intros Hfirst Hhtml. simpl in Hfirst. simpl.
  assert (forall q, q ∈ ps -> mimeType q = "text/html" -> skipped b64_utf8 q)
    as Hrest by (intros q Hq; apply Hhtml; now right).
  destruct (String.eqb (mimeType p) "text/plain") eqn:Hplain.
  - destruct (present (part_data p)) as [data|]; [| now apply IH].
    destruct (b64_utf8 data) as [decoded|]; [assumption | now apply IH].
  - destruct (present (part_data p)) as [data|] eqn:Hd; [| now apply IH].
    destruct (b64_utf8 data) as [decoded|] eqn:Hb; [| now apply IH].
    destruct (String.eqb (mimeType p) "text/html") eqn:Hh; [| now apply IH].
    apply String.eqb_eq in Hh.
    specialize (Hhtml p (list_elem_of_here _ _) Hh).
    unfold skipped in Hhtml. rewrite Hd, Hb in Hhtml. now destruct Hhtml.
Qed.

End DecodingFacts.

(** C2 as stated fails: with a text/html part in front of a text/plain
    part, both decodable, the body is the stripped HTML and not the plain
    text. *)
Lemma decode_email_body_html_before_plain :
  Spec.first_plain Samples.b64_utf8
    (default [] (GmailService.parts Samples.html_then_plain)) = Some "hello" /\
  GmailService.decode_email_body Samples.b64_utf8 Samples.extract_text_from_html
    Samples.html_then_plain = "hi" /\
  "hi" <> "hello".
Proof. repeat split. discriminate. Qed.

Lemma decode_email_body_first_usable_witness :
  GmailService.decode_email_body Samples.b64_utf8 Samples.extract_text_from_html
    Samples.plain_after_skipped = "hello" /\
  GmailService.decode_email_body Samples.b64_utf8 Samples.extract_text_from_html
    Samples.only_top_level = "top".
Proof.
  assert (Forall (Spec.skipped Samples.b64_utf8)
            [Samples.container_part; Samples.broken_part]) as Hskip.
  { repeat (apply Forall_cons_2; [exact I |]). apply Forall_nil_2. }
  split.
  - destruct (decode_email_body_first_usable Samples.b64_utf8
                Samples.extract_text_from_html Samples.plain_after_skipped)
      as [Hpart _].
    destruct (Hpart [Samples.container_part; Samples.broken_part]
                    Samples.plain_part [Samples.html_part] "aGVsbG8=" "hello"
                    eq_refl Hskip eq_refl eq_refl) as [Hplain _].
    exact (Hplain eq_refl).
  - destruct (decode_email_body_first_usable Samples.b64_utf8
                Samples.extract_text_from_html Samples.only_top_level)
      as [_ Htop].
    destruct (Htop Hskip) as [Hbody _].
    exact (Hbody "PHA-dG9wPC9wPg==" "<p>top</p>" eq_refl eq_refl).
Defined.

(** ** Trashing *)

Section TrashFacts.
Import Py GmailService.

Variable mailbox : Type.
Variable trash : string -> mailbox -> mailbox * result unit.

Abbreviation loop := (trash_loop mailbox trash).
Abbreviation all_ok := (all_trashed mailbox trash).

Lemma trash_loop_prefix (pre rest : list string) (mb mb1 : mailbox) :
  all_ok pre mb mb1 ->
  forall count,
    loop (pre ++ rest) count mb = loop rest (count + length pre)%nat mb1.
Proof.
  induction 1 as [mb | msg_id pre mb mb1 mb2 Hcall _ IH]; intros count.
  - simpl. f_equal. lia.
  - simpl. rewrite Hcall, IH. f_equal. lia.
Qed.

Lemma trash_loop_cases (ids : list string) (mb : mailbox) :
  (exists mb', all_ok ids mb mb') \/
  (exists pre msg_id post mb1 mb2 e,
      ids = pre ++ msg_id :: post /\ all_ok pre mb mb1 /\
      trash msg_id mb1 = (mb2, inl e)).
Proof.
  revert mb. induction ids as [|msg_id ids IH]; intros mb.
  - left. exists mb. constructor.
  - destruct (trash msg_id mb) as [mb1 [e | []]] eqn:Hcall.
    + right. exists [], msg_id, ids, mb, mb1, e.
      repeat split; [constructor | assumption].
    + destruct (IH mb1) as [[mb' Hall] | (pre & x & post & m1 & m2 & e & -> & Hall & Hx)].
      * left. exists mb'. econstructor; eassumption.
      * right. exists (msg_id :: pre), x, post, m1, m2, e.
        repeat split; [econstructor; eassumption | assumption].
Qed.

(** C7: the calls are made one after the other in list order; when all
    succeed the count is the length of the list; when the call for one id
    raises, that exception is the result, the mailbox is the one the
    earlier successful calls and the failing call left, and the ids after
    it play no part.  One of the two always applies. *)
Theorem move_emails_to_trash_sequential (ids : list string) (mb : mailbox) :
  (forall mb', all_ok ids mb mb' ->
               move_emails_to_trash mailbox trash ids mb
               = (mb', inr (length ids))) /\
  (forall pre msg_id post mb1 mb2 e,
      ids = pre ++ msg_id :: post ->
      all_ok pre mb mb1 ->
      trash msg_id mb1 = (mb2, inl e) ->
      move_emails_to_trash mailbox trash ids mb = (mb2, inl e) /\
      forall post',
        move_emails_to_trash mailbox trash (pre ++ msg_id :: post') mb
        = (mb2, inl e)) /\
  ((exists mb', all_ok ids mb mb') \/
   (exists pre msg_id post mb1 mb2 e,
       ids = pre ++ msg_id :: post /\ all_ok pre mb mb1 /\
       trash msg_id mb1 = (mb2, inl e))).
Proof.
  unfold move_emails_to_trash. split; [| split].
  - intros mb' Hall.
    rewrite <- (app_nil_r ids), (trash_loop_prefix _ _ _ _ Hall).
    rewrite app_nil_r. reflexivity.
  - intros pre msg_id post mb1 mb2 e -> Hall Hcall.
    assert (forall l, loop (pre ++ msg_id :: l) 0%nat mb = (mb2, inl e)) as H.
    { intros l. rewrite (trash_loop_prefix _ _ _ _ Hall). simpl.
      now rewrite Hcall. }
    split; [apply H | exact H].
  - apply trash_loop_cases.
Qed.

End TrashFacts.

Lemma move_emails_to_trash_sequential_witness :
  GmailService.move_emails_to_trash (list string) Samples.trash
    ["a"; "b"; "c"] [] = (["c"; "b"; "a"], inr 3%nat) /\
  GmailService.move_emails_to_trash (list string) Samples.trash
    ["a"; "b"; "gone"; "c"] []
  = (["b"; "a"], inl (Py.ApiError "Requested entity was not found.")).
Proof.
  split.
  - destruct (move_emails_to_trash_sequential (list string) Samples.trash
                ["a"; "b"; "c"] []) as [Hall _].
    apply Hall.
    repeat (eapply GmailService.all_trashed_cons; [reflexivity |]).
    apply GmailService.all_trashed_nil.
  - destruct (move_emails_to_trash_sequential (list string) Samples.trash
                ["a"; "b"; "gone"; "c"] []) as (_ & Hfail & _).
    apply (Hfail ["a"; "b"] "gone" ["c"] ["b"; "a"]);
      [reflexivity | | reflexivity].
    repeat (eapply GmailService.all_trashed_cons; [reflexivity |]).
    apply GmailService.all_trashed_nil.
Defined.

(** ** The result cache *)

Section CacheFacts.
Import Py Main.

Implicit Types (email_cache : gmap string entry) (uid : string).

(** What a put stores: the first reading as created_at, the second
    reading plus two hours as expires_at. *)
Lemma store_user_emails_entry (now1 now2 : Z) uid (mails : list message)
    (src : string) email_cache :
  store_user_emails now1 now2 uid mails src email_cache !! uid
  = Some {| emails := mails; source := src;
            created_at := now1; expires_at := now2 + two_hours |}.
Proof. apply lookup_insert_eq. Qed.

Lemma lookup_foldl_delete (uids : list string) email_cache uid :
  foldl (fun cache u => delete u cache) email_cache uids !! uid
  = if decide (uid ∈ uids) then None else email_cache !! uid.
Proof.
  revert email_cache. induction uids as [|u uids IH]; intros email_cache.
  - now rewrite decide_False by apply not_elem_of_nil.
  - simpl. rewrite IH. destruct (decide (uid ∈ uids)) as [Hin | Hnot].
    + now rewrite decide_True by now right.
    + destruct (decide (u = uid)) as [-> | Hne].
      * rewrite lookup_delete_eq. now rewrite decide_True by now left.
      * rewrite lookup_delete_ne by assumption.
        rewrite decide_False; [reflexivity |].
        intros [Heq | Hin]%elem_of_cons; [congruence | contradiction].
Qed.

Lemma elem_of_expired_uids (now_at : string -> Z) email_cache uid :
  uid ∈ expired_uids now_at email_cache <->
  exists cached, email_cache !! uid = Some cached /\
                 expires_at cached < now_at uid.
Proof.
  unfold expired_uids. rewrite list_elem_of_fmap. split.
  - intros ([u cached] & -> & [Hexp Hin]%list_elem_of_filter).
    apply elem_of_map_to_list in Hin. now exists cached.
  - intros (cached & Hlook & Hexp). exists (uid, cached).
    split; [reflexivity |]. apply list_elem_of_filter.
    split; [assumption | now apply elem_of_map_to_list].
Qed.

Lemma lookup_cleanup (now_at : string -> Z) email_cache uid :
  cleanup_expired_cache now_at email_cache !! uid
  = match email_cache !! uid with
    | Some cached =>
        if expires_at cached <? now_at uid then None else Some cached
    | None => None
    end.
Proof.
  unfold cleanup_expired_cache. rewrite lookup_foldl_delete.
  destruct (decide (uid ∈ expired_uids now_at email_cache)) as [Hin | Hnot].
  - apply elem_of_expired_uids in Hin as (cached & -> & Hexp).
    now rewrite (proj2 (Z.ltb_lt _ _) Hexp).
  - destruct (email_cache !! uid) as [cached|] eqn:Hlook; [| reflexivity].
    destruct (expires_at cached <? now_at uid) eqn:Hexp; [| reflexivity].
    exfalso. apply Hnot, elem_of_expired_uids.
    exists cached. split; [assumption | now apply Z.ltb_lt].
Qed.

(** C9: the sweep deletes an entry exactly when the clock, read as that
    entry is tested, is strictly after its expires_at; every other entry
    stays as it was, and no entry appears. *)
Theorem cleanup_expired_cache_exact (now_at : string -> Z) email_cache uid :
  (forall cached,
      email_cache !! uid = Some cached ->
      expires_at cached < now_at uid ->
      cleanup_expired_cache now_at email_cache !! uid = None) /\
  (forall cached,
      email_cache !! uid = Some cached ->
      now_at uid <= expires_at cached ->
      cleanup_expired_cache now_at email_cache !! uid = Some cached) /\
  (email_cache !! uid = None ->
   cleanup_expired_cache now_at email_cache !! uid = None).
Proof.
  rewrite lookup_cleanup. repeat split.
  - intros cached -> Hexp. now rewrite (proj2 (Z.ltb_lt _ _) Hexp).
  - intros cached -> Hlive. now rewrite (proj2 (Z.ltb_ge _ _) Hlive).
  - now intros ->.
Qed.

Lemma get_user_emails_live (now : Z) uid email_cache cached :
  email_cache !! uid = Some cached ->
  now <= expires_at cached ->
  get_user_emails now uid email_cache
  = (email_cache, (Some (emails cached), Some (source cached))).
Proof.
  intros Hlook Hlive. unfold get_user_emails. rewrite Hlook.
  now rewrite (proj2 (Z.ltb_ge _ _) Hlive).
Qed.

Lemma get_user_emails_undisturbed (now : Z) (user_id : string) email_cache
    uid cached :
  email_cache !! uid = Some cached ->
  (user_id = uid -> now <= expires_at cached) ->
  (get_user_emails now user_id email_cache).1 !! uid = Some cached.
Proof.
  intros Hlook Hnow. unfold get_user_emails.
  destruct (decide (user_id = uid)) as [-> | Hne].
  - rewrite Hlook. now rewrite (proj2 (Z.ltb_ge _ _) (Hnow eq_refl)).
  - destruct (email_cache !! user_id) as [c|]; [| assumption].
    destruct (expires_at c <? now); [| assumption].
    simpl. now rewrite lookup_delete_ne.
Qed.

Lemma cleanup_undisturbed (now_at : string -> Z) email_cache uid cached :
  email_cache !! uid = Some cached ->
  now_at uid <= expires_at cached ->
  cleanup_expired_cache now_at email_cache !! uid = Some cached.
Proof.
  intros Hlook Hnow. rewrite lookup_cleanup, Hlook.
  now rewrite (proj2 (Z.ltb_ge _ _) Hnow).
Qed.

Lemma step_undisturbed (o : op) email_cache uid cached :
  email_cache !! uid = Some cached ->
  undisturbed uid (expires_at cached) o ->
  step email_cache o !! uid = Some cached.
Proof.
  intros Hlook.
  destruct o as [n1 n2 user_id mails src | now user_id | now_at | now_at
                | now_at now suid | suid]; simpl.
  - intros Hne. unfold store_user_emails. now rewrite lookup_insert_ne.
  - now apply get_user_emails_undisturbed.
  - now apply cleanup_undisturbed.
  - now apply cleanup_undisturbed.
  - intros [Hsweep Hget]. unfold _get_active_results.
    destruct (GmailService.present suid) as [user_id|]; [| assumption].
    apply get_user_emails_undisturbed; [now apply cleanup_undisturbed |].
    intros ->. now apply Hget.
  - intros Hne. unfold logout.
    destruct (GmailService.present suid) as [user_id|]; [| assumption].
    destruct (email_cache !! user_id); [| assumption].
    rewrite lookup_delete_ne; [assumption | congruence].
Qed.

Lemma run_undisturbed (ops : list op) email_cache uid cached :
  email_cache !! uid = Some cached ->
  Forall (undisturbed uid (expires_at cached)) ops ->
  foldl step email_cache ops !! uid = Some cached.
Proof.
  intros Hlook Hops. revert email_cache Hlook.
  induction Hops as [|o ops Ho _ IH]; intros email_cache Hlook;
    [assumption |].
  simpl. apply IH. now apply step_undisturbed.
Qed.

(** C3: a get after a put, at a clock reading not after the entry's
    expires_at, returns the list and the provenance of the put and leaves
    the cache as it found it; so does a get that comes after further
    operations, as long as none of them is a put or a logout for the same
    owner and none of them reads the clock after expires_at. *)
Theorem get_after_put (now1 now2 now : Z) uid (mails : list message)
    (src : string) email_cache :
  let cache := store_user_emails now1 now2 uid mails src email_cache in
  exists cached,
    cache !! uid = Some cached /\
    expires_at cached = now2 + two_hours /\
    (now <= expires_at cached ->
     get_user_emails now uid cache = (cache, (Some mails, Some src))) /\
    (forall ops,
        Forall (undisturbed uid (expires_at cached)) ops ->
        now <= expires_at cached ->
        get_user_emails now uid (foldl step cache ops)
        = (foldl step cache ops, (Some mails, Some src))).
Proof.
  intros cache.
  pose proof (store_user_emails_entry now1 now2 uid mails src email_cache)
    as Hlook. fold cache in Hlook.
  eexists. split; [exact Hlook |]. split; [reflexivity |]. split.
  - intros Hlive. now rewrite (get_user_emails_live now uid cache _ Hlook).
  - intros ops Hops Hlive.
    now rewrite (get_user_emails_live now uid _ _
                   (run_undisturbed ops cache uid _ Hlook Hops)).
Qed.

(** C4: a get strictly after expires_at answers [(None, None)] and
    deletes the entry, leaving the others; a get for an owner without an
    entry answers [(None, None)] and changes nothing. *)
Theorem get_expired_or_missing (now : Z) uid email_cache :
  (forall cached,
      email_cache !! uid = Some cached ->
      expires_at cached < now ->
      get_user_emails now uid email_cache
      = (delete uid email_cache, (None, None)) /\
      (get_user_emails now uid email_cache).1 !! uid = None /\
      forall other, other <> uid ->
        (get_user_emails now uid email_cache).1 !! other
        = email_cache !! other) /\
  (email_cache !! uid = None ->
   get_user_emails now uid email_cache = (email_cache, (None, None))).
Proof.
  unfold get_user_emails. split.
  - intros cached -> Hexp. rewrite (proj2 (Z.ltb_lt _ _) Hexp). simpl.
    split; [reflexivity |]. split; [apply lookup_delete_eq |].
    intros other Hne. now apply lookup_delete_ne.
  - now intros ->.
Qed.

(** A get strictly after the expiry of the entry a put has made. *)
Lemma get_after_put_expired (now1 now2 now : Z) uid (mails : list message)
    (src : string) email_cache :
  now2 + two_hours < now ->
  get_user_emails now uid (store_user_emails now1 now2 uid mails src email_cache)
  = (delete uid email_cache, (None, None)).
Proof.
  intros Hexp. unfold get_user_emails, store_user_emails.
  rewrite lookup_insert_eq. simpl.
  rewrite (proj2 (Z.ltb_lt _ _) Hexp). now rewrite delete_insert_eq.
Qed.

End CacheFacts.

Lemma get_after_put_witness :
  Main.get_user_emails Main.two_hours "u"
    (Main.store_user_emails 0 0 "u" Samples.four_mails "model prediction" ∅)
  = (Main.store_user_emails 0 0 "u" Samples.four_mails "model prediction" ∅,
     (Some Samples.four_mails, Some "model prediction")).
Proof.
  destruct (get_after_put 0 0 Main.two_hours "u" Samples.four_mails
              "model prediction" ∅) as (cached & _ & Hexp & Hget & _).
  apply Hget. rewrite Hexp. reflexivity.
Defined.

Lemma get_expired_or_missing_witness :
  Main.get_user_emails (Main.two_hours + 1) "u"
    (Main.store_user_emails 0 0 "u" Samples.four_mails "model prediction" ∅)
  = (delete "u"
       (Main.store_user_emails 0 0 "u" Samples.four_mails "model prediction" ∅),
     (None, None)) /\
  Main.get_user_emails 5 "nobody" ∅ = (∅, (None, None)).
Proof.
  split.
  - destruct (get_expired_or_missing (Main.two_hours + 1) "u"
                (Main.store_user_emails 0 0 "u" Samples.four_mails
                   "model prediction" ∅)) as [Hexpired _].
    apply (Hexpired {| Main.emails := Samples.four_mails;
                       Main.source := "model prediction";
                       Main.created_at := 0;
                       Main.expires_at := 0 + Main.two_hours |});
      reflexivity.
  - destruct (get_expired_or_missing 5 "nobody" ∅) as [_ Hmissing].
    apply Hmissing. reflexivity.
Defined.

Lemma cleanup_expired_cache_exact_witness :
  let cache :=
    Main.store_user_emails 100 100 "new" Samples.ham_mails "user corrected"
      (Main.store_user_emails 0 0 "old" Samples.four_mails "model prediction" ∅) in
  let swept :=
    Main.cleanup_expired_cache (Samples.clock (Main.two_hours + 50)) cache in
  swept !! "old" = None /\
  swept !! "new" = cache !! "new" /\
  swept !! "nobody" = None.
Proof.
  intros cache swept. split; [| split].
  - destruct (cleanup_expired_cache_exact
                (Samples.clock (Main.two_hours + 50)) cache "old")
      as [Hold _].
    apply (Hold {| Main.emails := Samples.four_mails;
                   Main.source := "model prediction";
                   Main.created_at := 0;
                   Main.expires_at := 0 + Main.two_hours |});
      reflexivity.
  - destruct (cleanup_expired_cache_exact
                (Samples.clock (Main.two_hours + 50)) cache "new")
      as (_ & Hnew & _).
    apply (Hnew {| Main.emails := Samples.ham_mails;
                   Main.source := "user corrected";
                   Main.created_at := 100;
                   Main.expires_at := 100 + Main.two_hours |});
      [reflexivity | discriminate].
  - destruct (cleanup_expired_cache_exact
                (Samples.clock (Main.two_hours + 50)) cache "nobody")
      as (_ & _ & Hnone).
    apply Hnone. reflexivity.
Defined.

Section CacheInvariants.
Import Py Main.

Implicit Types (email_cache : gmap string entry) (uid : string).

Lemma store_user_emails_lifetime (now1 now2 : Z) uid (mails : list message)
    (src : string) email_cache :
  exists cached,
    store_user_emails now1 now2 uid mails src email_cache !! uid = Some cached /\
    expires_at cached - created_at cached = two_hours + (now2 - now1).
Proof.
  eexists. split; [apply store_user_emails_entry |]. simpl. lia.
Qed.

Lemma get_user_emails_keeps (now : Z) (user_id : string) email_cache uid cached :
  (get_user_emails now user_id email_cache).1 !! uid = Some cached ->
  email_cache !! uid = Some cached.
Proof.
  unfold get_user_emails.
  destruct (email_cache !! user_id) as [c|]; [| easy].
  destruct (expires_at c <? now); [| easy]. simpl.
  intros H. apply lookup_delete_Some in H. tauto.
Qed.

Lemma cleanup_expired_cache_keeps (now_at : string -> Z) email_cache uid cached :
  cleanup_expired_cache now_at email_cache !! uid = Some cached ->
  email_cache !! uid = Some cached.
Proof.
  rewrite lookup_cleanup. destruct (email_cache !! uid) as [c|]; [| easy].
  now destruct (expires_at c <? now_at uid).
Qed.

(** No read changes an entry it leaves in the cache; in particular the
    timestamps of a live entry are never extended. *)
Lemma reads_keep_entries (o : op) email_cache uid cached :
  is_read o = true ->
  step email_cache o !! uid = Some cached ->
  email_cache !! uid = Some cached.
Proof.
  destruct o as [| now user_id | now_at | now_at | now_at now suid |];
    try discriminate; intros _; simpl.
  - apply get_user_emails_keeps.
  - apply cleanup_expired_cache_keeps.
  - apply cleanup_expired_cache_keeps.
  - unfold _get_active_results.
    destruct (GmailService.present suid) as [user_id|]; [| easy].
    intros H%get_user_emails_keeps. now apply cleanup_expired_cache_keeps in H.
Qed.

Lemma filter_key_absent {A} (l : list (string * A)) uid :
  uid ∉ l.*1 -> filter (fun kv => kv.1 = uid) l = [].
Proof.
  induction l as [|[k v] l IH]; [reflexivity |].
  rewrite fmap_cons, not_elem_of_cons. simpl. intros [Hne Hnot].
  rewrite filter_cons_False by (simpl; congruence). auto.
Qed.

Lemma filter_key_length {A} (l : list (string * A)) uid :
  NoDup l.*1 -> (length (filter (fun kv => kv.1 = uid) l) <= 1)%nat.
Proof.
  induction l as [|[k v] l IH]; [simpl; lia |].
  rewrite fmap_cons, NoDup_cons. simpl. intros [Hnot Hnd].
  destruct (decide (k = uid)) as [-> | Hne].
  - rewrite filter_cons_True by reflexivity.
    rewrite filter_key_absent by assumption. simpl. lia.
  - rewrite filter_cons_False by (simpl; congruence). auto.
Qed.

(** C6: a second put for the same owner replaces the first one whole:
    the cache is the one the second put alone would have made, its entry
    carries the second put's list, provenance and timestamps, and a get
    within its lifetime returns the second put's data.  After any run of
    cache operations the dict has at most one entry for an owner. *)
Theorem put_put_overwrites (n1 n2 n3 n4 : Z) uid (m1 m2 : list message)
    (s1 s2 : string) email_cache :
  let once := store_user_emails n3 n4 uid m2 s2 email_cache in
  let twice :=
    store_user_emails n3 n4 uid m2 s2
      (store_user_emails n1 n2 uid m1 s1 email_cache) in
  twice = once /\
  twice !! uid = Some {| emails := m2; source := s2;
                         created_at := n3; expires_at := n4 + two_hours |} /\
  (forall now, now <= n4 + two_hours ->
               get_user_emails now uid twice = (twice, (Some m2, Some s2))) /\
  (forall ops owner,
      (length (filter (fun kv => kv.1 = owner) (map_to_list (run ops))) <= 1)%nat).
Proof.
  intros once twice. split; [apply insert_insert_eq |].
  split; [apply store_user_emails_entry |]. split.
  - intros now Hlive.
    now rewrite (get_user_emails_live now uid twice _
                   (store_user_emails_entry n3 n4 uid m2 s2 _)).
  - intros ops owner. apply filter_key_length, NoDup_fst_map_to_list.
Qed.

End CacheInvariants.

Lemma put_put_overwrites_witness :
  Main.get_user_emails (5 + Main.two_hours) "u"
    (Main.store_user_emails 5 5 "u" Samples.ham_mails "user corrected"
       (Main.store_user_emails 0 0 "u" Samples.four_mails "model prediction" ∅))
  = (Main.store_user_emails 5 5 "u" Samples.ham_mails "user corrected"
       (Main.store_user_emails 0 0 "u" Samples.four_mails "model prediction" ∅),
     (Some Samples.ham_mails, Some "user corrected")).
Proof.
  destruct (put_put_overwrites 0 0 5 5 "u" Samples.four_mails Samples.ham_mails
              "model prediction" "user corrected" ∅) as (_ & _ & Hget & _).
  apply Hget. reflexivity.
Defined.

(** C5 does not hold of the put as written: it reads the clock twice, and
    the entry made when the two readings are one microsecond apart has
    expires_at = created_at + two hours + one microsecond. *)
Theorem store_user_emails_two_readings :
  exists cached,
    Main.store_user_emails 0 1 "u" [] "model prediction" ∅ !! "u" = Some cached /\
    Main.created_at cached = 0 /\
    Main.expires_at cached = Main.two_hours + 1 /\
    Main.expires_at cached <> Main.created_at cached + Main.two_hours.
Proof.
  eexists. split; [apply store_user_emails_entry |]. simpl.
  repeat split. discriminate.
Qed.

(** ** The trash handler *)

Section MoveToTrashFacts.
Import Py Text Main.

Variable mailbox : Type.
Variable trash : string -> mailbox -> mailbox * result unit.

Lemma is_spam_text (e : message) :
  is_spam e = true <-> prediction_text e = "spam".
Proof. apply String.eqb_eq. Qed.

Lemma elem_of_selected (mails : list message) (e : message) :
  e ∈ filter (fun e => is_spam e = true) mails <->
  e ∈ mails /\ prediction_text e = "spam".
Proof. rewrite list_elem_of_filter, is_spam_text. tauto. Qed.

(** C8, for a cached list that is not empty: the handler selects, in
    list order, the messages whose prediction text lower-cased and trimmed
    is "spam", that is "spam" in any letter case between white space;
    with nothing selected the answer is the zero-moved success and the
    mailbox is untouched whatever the trash call would do; otherwise the
    selected ids, and only they, go to the Mail Client.  An empty cached
    list is answered as not found. *)
Theorem move_to_trash_selection (now_at : string -> Z) (now : Z)
    (session_user_id : option string) (email_cache cache : gmap string entry)
    (mails : list message) (src : option string) (mb : mailbox) :
  _get_active_results now_at now session_user_id email_cache
  = (cache, (Some mails, src)) ->
  (forall e, e ∈ filter (fun e => is_spam e = true) mails <->
             e ∈ mails /\
             strip (lower (str (default (PyStr "") (prediction e)))) = "spam") /\
  (forall e, is_spam e = true <->
             exists l r, blank l = true /\ blank r = true /\
                         lower (str (default (PyStr "") (prediction e)))
                         = l +:+ "spam" +:+ r) /\
  spam_ids mails
  = (fun e => str (id e)) <$> filter (fun e => is_spam e = true) mails /\
  spam_ids Samples.four_mails = ["m1"; "m2"] /\
  (mails <> [] -> spam_ids mails = [] ->
   move_to_trash mailbox trash None now_at now session_user_id email_cache mb
   = (cache, mb, zero_moved src)) /\
  (mails <> [] -> spam_ids mails <> [] ->
   move_to_trash mailbox trash None now_at now session_user_id email_cache mb
   = match GmailService.move_emails_to_trash mailbox trash (spam_ids mails) mb with
     | (mb', inr n) => (cache, mb', moved_to_trash n src)
     | (mb', inl e) => (cache, mb', move_failed e)
     end) /\
  (mails = [] ->
   move_to_trash mailbox trash None now_at now session_user_id email_cache mb
   = (cache, mb, not_found)).
Proof.
  intros Hactive. split; [apply elem_of_selected |].
  split; [intros e; rewrite is_spam_text; apply strip_eq_spam |].
  split; [reflexivity |]. split; [reflexivity |].
  unfold move_to_trash. rewrite Hactive. repeat split.
  - intros Hne Hids. destruct mails as [|m ms]; [contradiction |].
    now rewrite Hids.
  - intros Hne Hids. destruct mails as [|m ms]; [contradiction |].
    destruct (spam_ids (m :: ms)) as [|i ids]; [contradiction |].
    reflexivity.
  - now intros ->.
Qed.

End MoveToTrashFacts.

(** C8 as stated fails on an empty cached list, which an uploaded sheet
    without rows leaves in the cache: no message is selected, and the
    answer is the 404 and not the zero-moved success. *)
Lemma move_to_trash_empty_list :
  let cache := Main.run [Main.Put 0 0 "u" [] "user corrected"] in
  Main.get_user_emails 1 "u" cache = (cache, (Some [], Some "user corrected")) /\
  Main.spam_ids [] = [] /\
  Main.move_to_trash (list string) Samples.trash None (Samples.clock 1) 1
    (Some "u") cache []
  = (cache, [],
     Main.HTTPException 404 "No results found. Please run detection first.") /\
  Main.HTTPException 404 "No results found. Please run detection first."
  <> Main.zero_moved (Some "user corrected").
Proof. repeat split. discriminate. Qed.

Lemma move_to_trash_selection_witness :
  let cache := Main.run [Main.Put 0 0 "u" Samples.ham_mails "model prediction"] in
  Main.move_to_trash (list string) Samples.trash None (Samples.clock 1) 1
    (Some "u") cache ["kept"]
  = (cache, ["kept"], Main.zero_moved (Some "model prediction")).
Proof.
  intros cache.
  destruct (move_to_trash_selection (list string) Samples.trash
              (Samples.clock 1) 1 (Some "u") cache cache Samples.ham_mails
              (Some "model prediction") ["kept"])
    as (_ & _ & _ & _ & Hzero & _).
  - reflexivity.
  - apply Hzero; [discriminate | reflexivity].
Defined.

Example move_to_trash_four_mails :
  let cache := Main.run [Main.Put 0 0 "u" Samples.four_mails "model prediction"] in
  Main.move_to_trash (list string) Samples.trash None (Samples.clock 1) 1
    (Some "u") cache []
  = (cache, ["m2"; "m1"],
     Main.JSONResponse {| Main.status := "success"; Main.moved := 2;
                          Main.message_text := "2 mails have been moved to trash";
                          Main.report_source := Some "model prediction" |}).
Proof. reflexivity. Qed.

(** ** Dates *)

Ltac bools :=
  repeat match goal with
    | H : (_ && _) = true |- _ => apply andb_true_iff in H as [? ?]
    | H : (_ || _) = true |- _ => apply orb_true_iff in H as [? | ?]
    | H : (_ =? _) = true |- _ => apply Z.eqb_eq in H
    | H : (_ <=? _) = true |- _ => apply Z.leb_le in H
    | H : (_ <? _) = true |- _ => apply Z.ltb_lt in H
    | H : (_ <? _) = false |- _ => apply Z.ltb_ge in H
    end.

Section DateFacts.
Import Text Dates.

Lemma digit_range (c : ascii) (n : Z) : digit c = Some n -> 0 <= n <= 9.
Proof.
  intros H. destruct c as [[] [] [] [] [] [] [] []]; vm_compute in H;
    try discriminate; injection H as <-; lia.
Qed.

Lemma digit_not_dash (c : ascii) (n : Z) :
  digit c = Some n -> Ascii.eqb c "-" = false.
Proof.
  intros H. destruct c as [[] [] [] [] [] [] [] []]; vm_compute in H;
    try discriminate; reflexivity.
Qed.

Lemma field_d_range (f : string) (d : Z) :
  field_d f = Some d ->
  1 <= d <= 31 /\ (String.length f <= 2)%nat /\ dashless f = true.
Proof.
  destruct f as [|a [|b [|c f]]]; simpl; try discriminate.
  - destruct (digit a) as [n|] eqn:Ha; [| discriminate].
    destruct (1 <=? n) eqn:Hn; [| discriminate]. intros [= <-].
    pose proof (digit_range _ _ Ha). rewrite (digit_not_dash _ _ Ha).
    bools. repeat split; simpl; lia.
  - destruct (digit b) as [nb|] eqn:Hb; [| discriminate].
    pose proof (digit_range _ _ Hb). rewrite (digit_not_dash _ _ Hb).
    destruct (Ascii.eqb a " ") eqn:Hsp.
    + apply Ascii.eqb_eq in Hsp as ->.
      destruct (1 <=? nb) eqn:Hn; [| discriminate]. intros [= <-].
      bools. repeat split; simpl; lia.
    + destruct (digit a) as [na|] eqn:Ha; [| discriminate].
      pose proof (digit_range _ _ Ha). rewrite (digit_not_dash _ _ Ha).
      match goal with |- (if ?c then _ else _) = _ -> _ => destruct c eqn:Hc end;
        [| discriminate].
      intros [= <-]. bools; repeat split; simpl; lia.
Qed.

Lemma field_m_range (f : string) (m : Z) :
  field_m f = Some m ->
  1 <= m <= 12 /\ (String.length f <= 2)%nat /\ dashless f = true.
Proof.
  destruct f as [|a [|b [|c f]]]; simpl; try discriminate.
  - destruct (digit a) as [n|] eqn:Ha; [| discriminate].
    destruct (1 <=? n) eqn:Hn; [| discriminate]. intros [= <-].
    pose proof (digit_range _ _ Ha). rewrite (digit_not_dash _ _ Ha).
    bools. repeat split; simpl; lia.
  - destruct (digit a) as [na|] eqn:Ha; [| discriminate].
    destruct (digit b) as [nb|] eqn:Hb; [| discriminate].
    pose proof (digit_range _ _ Ha). pose proof (digit_range _ _ Hb).
    rewrite (digit_not_dash _ _ Ha), (digit_not_dash _ _ Hb).
    match goal with |- (if ?c then _ else _) = _ -> _ => destruct c eqn:Hc end;
      [| discriminate].
    intros [= <-]. bools; repeat split; simpl; lia.
Qed.

Lemma field_Y_range (f : string) (y : Z) :
  field_Y f = Some y ->
  0 <= y <= 9999 /\ String.length f = 4%nat /\ dashless f = true.
Proof.
  destruct f as [|a [|b [|c [|d [|e f]]]]]; simpl; try discriminate.
  destruct (digit a) as [na|] eqn:Ha; [| discriminate].
  destruct (digit b) as [nb|] eqn:Hb; [| discriminate].
  destruct (digit c) as [nc|] eqn:Hc; [| discriminate].
  destruct (digit d) as [nd|] eqn:Hd; [| discriminate].
  intros [= <-].
  pose proof (digit_range _ _ Ha). pose proof (digit_range _ _ Hb).
  pose proof (digit_range _ _ Hc). pose proof (digit_range _ _ Hd).
  rewrite (digit_not_dash _ _ Ha), (digit_not_dash _ _ Hb),
    (digit_not_dash _ _ Hc), (digit_not_dash _ _ Hd).
  repeat split; simpl; lia.
Qed.

Lemma split_dash_dashless (f : string) :
  dashless f = true -> split_dash f = [f].
Proof.
  induction f as [|c f IH]; [reflexivity |].
  simpl. intros [Hc Hf]%andb_true_iff.
  apply negb_true_iff in Hc. now rewrite Hc, IH.
Qed.

Lemma split_dash_app (f rest : string) :
  dashless f = true ->
  split_dash (f +:+ "-" +:+ rest) = f :: split_dash rest.
Proof.
  induction f as [|c f IH]; [reflexivity |].
  simpl. intros [Hc Hf]%andb_true_iff.
  apply negb_true_iff in Hc. now rewrite Hc, IH.
Qed.

Lemma split_dash_fields (a b c : string) :
  dashless a = true -> dashless b = true -> dashless c = true ->
  split_dash (a +:+ "-" +:+ b +:+ "-" +:+ c) = [a; b; c].
Proof.
  intros Ha Hb Hc.
  now rewrite !split_dash_app, split_dash_dashless by assumption.
Qed.

Lemma make_date_valid (y m d : Z) (dt : date) :
  make_date y m d = Some dt ->
  valid y m d = true /\ dt = {| year := y; month := m; day := d |}.
Proof.
  unfold make_date. destruct (valid y m d); [| discriminate].
  now intros [= <-].
Qed.

Lemma pad2_day (d : Z) :
  1 <= d <= 31 -> field_d (pad2 d) = Some d /\ dashless (pad2 d) = true.
Proof.
  intros Hd.
  assert (forallb (fun n => match field_d (pad2 n) with
                            | Some v => v =? n
                            | None => false
                            end && dashless (pad2 n)) (seqZ 1 31) = true)
    as Hall by (vm_compute; reflexivity).
  rewrite forallb_forall in Hall.
  assert (In d (seqZ 1 31)) as Hin
    by (apply list_elem_of_In, elem_of_seqZ; lia).
  apply Hall, andb_true_iff in Hin as [Hf Hdash].
  destruct (field_d (pad2 d)); [| discriminate].
  apply Z.eqb_eq in Hf. now subst.
Qed.

Lemma pad2_month (m : Z) :
  1 <= m <= 12 -> field_m (pad2 m) = Some m /\ dashless (pad2 m) = true.
Proof.
  intros Hm.
  assert (forallb (fun n => match field_m (pad2 n) with
                            | Some v => v =? n
                            | None => false
                            end && dashless (pad2 n)) (seqZ 1 12) = true)
    as Hall by (vm_compute; reflexivity).
  rewrite forallb_forall in Hall.
  assert (In m (seqZ 1 12)) as Hin
    by (apply list_elem_of_In, elem_of_seqZ; lia).
  apply Hall, andb_true_iff in Hin as [Hf Hdash].
  destruct (field_m (pad2 m)); [| discriminate].
  apply Z.eqb_eq in Hf. now subst.
Qed.

Lemma year_text_field (y : Z) :
  1000 <= y <= 9999 ->
  field_Y (year_text y) = Some y /\ dashless (year_text y) = true.
Proof.
  intros Hy.
  assert (forallb (fun n => match field_Y (year_text n) with
                            | Some v => v =? n
                            | None => false
                            end && dashless (year_text n)) (seqZ 1000 9000) = true)
    as Hall by (vm_compute; reflexivity).
  rewrite forallb_forall in Hall.
  assert (In y (seqZ 1000 9000)) as Hin
    by (apply list_elem_of_In, elem_of_seqZ; lia).
  apply Hall, andb_true_iff in Hin as [Hf Hdash].
  destruct (field_Y (year_text y)); [| discriminate].
  apply Z.eqb_eq in Hf. now subst.
Qed.

Lemma valid_ranges (y m d : Z) :
  valid y m d = true -> 1 <= y <= 9999 /\ 1 <= m <= 12 /\ 1 <= d <= 31.
Proof.
  unfold valid, days_in_month. intros H. bools.
  repeat split; try lia.
  repeat match goal with
         | H : context [if ?c then _ else _] |- _ => destruct c
         end; lia.
Qed.

Lemma strptime_dmY_fields (s : string) (dt : date) :
  strptime_dmY s = Some dt ->
  exists fd fm fy,
    split_dash s = [fd; fm; fy] /\
    field_d fd = Some (day dt) /\ field_m fm = Some (month dt) /\
    field_Y fy = Some (year dt) /\
    valid (year dt) (month dt) (day dt) = true.
Proof.
  unfold strptime_dmY.
  destruct (split_dash s) as [|fd [|fm [|fy [|x l]]]]; try discriminate.
  destruct (field_d fd) as [d|] eqn:Hd; [| discriminate].
  destruct (field_m fm) as [m|] eqn:Hm; [| discriminate].
  destruct (field_Y fy) as [y|] eqn:Hy; [| discriminate].
  intros [Hv ->]%make_date_valid. exists fd, fm, fy. simpl. auto.
Qed.

Lemma strptime_Ymd_fields (s : string) (dt : date) :
  strptime_Ymd s = Some dt ->
  exists fy fm fd,
    split_dash s = [fy; fm; fd] /\
    field_d fd = Some (day dt) /\ field_m fm = Some (month dt) /\
    field_Y fy = Some (year dt) /\
    valid (year dt) (month dt) (day dt) = true.
Proof.
  unfold strptime_Ymd.
  destruct (split_dash s) as [|fy [|fm [|fd [|x l]]]]; try discriminate.
  destruct (field_Y fy) as [y|] eqn:Hy; [| discriminate].
  destruct (field_m fm) as [m|] eqn:Hm; [| discriminate].
  destruct (field_d fd) as [d|] eqn:Hd; [| discriminate].
  intros [Hv ->]%make_date_valid. exists fy, fm, fd. simpl. auto.
Qed.

Lemma field_d_not_Y (f : string) (d : Z) :
  field_d f = Some d -> field_Y f = None.
Proof.
  intros (_ & Hlen & _)%field_d_range.
  destruct (field_Y f) as [y|] eqn:Hy; [| reflexivity].
  apply field_Y_range in Hy as (_ & Hfour & _). lia.
Qed.

Lemma field_Y_not_d (f : string) (y : Z) :
  field_Y f = Some y -> field_d f = None.
Proof.
  intros Hy. destruct (field_d f) as [d|] eqn:Hd; [| reflexivity].
  apply field_d_not_Y in Hd. congruence.
Qed.

Lemma strptime_disjoint (s : string) :
  strptime_dmY s = None \/ strptime_Ymd s = None.
Proof.
  destruct (strptime_dmY s) as [dt|] eqn:Hdmy; [right | now left].
  apply strptime_dmY_fields in Hdmy as (fd & fm & fy & Hs & Hd & _).
  unfold strptime_Ymd. rewrite Hs, (field_d_not_Y _ _ Hd). reflexivity.
Qed.

Lemma strftime_dmY_parses (dt : date) :
  valid (year dt) (month dt) (day dt) = true ->
  1000 <= year dt ->
  strptime_dmY (strftime_dmY dt) = Some dt.
Proof.
  intros Hv Hy. destruct dt as [y m d]. simpl in *.
  destruct (valid_ranges _ _ _ Hv) as (Hyr & Hmr & Hdr).
  destruct (pad2_day d Hdr) as [Hfd Hdd].
  destruct (pad2_month m Hmr) as [Hfm Hdm].
  destruct (year_text_field y) as [Hfy Hdy]; [lia |].
  unfold strptime_dmY, strftime_dmY. simpl.
  rewrite split_dash_fields by assumption.
  rewrite Hfd, Hfm, Hfy. unfold make_date. now rewrite Hv.
Qed.

End DateFacts.

Section NormalizeFacts.
Import Py Text Dates GmailService Main.

(** No string is a date in both formats, so the order in which
    [normalize] tries them decides nothing: trying ["%Y-%m-%d"] first gives
    the same answer for every input. *)
Theorem normalize_order_free (s : string) :
  (strptime_dmY s = None \/ strptime_Ymd s = None) /\
  normalize s
  = match strptime_Ymd s with
    | Some dt => inr (strftime_dmY dt)
    | None =>
        match strptime_dmY s with
        | Some dt => inr (strftime_dmY dt)
        | None => bad_dates
        end
    end.
Proof.
  split; [apply strptime_disjoint |].
  unfold normalize.
  destruct (strptime_disjoint s) as [-> | ->]; [reflexivity |].
  now destruct (strptime_dmY s).
Qed.

(** What [normalize] returns is the ["%d-%m-%Y"] print of a real calendar
    date (month 1..12, day within the month's length, leap years counted),
    and for a year of four digits that print parses back to the same date
    and is a fixed point of [normalize]. *)
Theorem normalize_canonical (s t : string) :
  normalize s = inr t ->
  exists dt,
    (strptime_dmY s = Some dt \/ strptime_Ymd s = Some dt) /\
    1 <= year dt <= 9999 /\ 1 <= month dt <= 12 /\
    1 <= day dt <= days_in_month (year dt) (month dt) /\
    t = strftime_dmY dt /\
    (1000 <= year dt -> strptime_dmY t = Some dt /\ normalize t = inr t).
Proof.
  unfold normalize. intros H.
  assert (exists dt, (strptime_dmY s = Some dt \/ strptime_Ymd s = Some dt) /\
                     valid (year dt) (month dt) (day dt) = true /\
                     t = strftime_dmY dt) as (dt & Hsrc & Hv & ->).
  { destruct (strptime_dmY s) as [dt|] eqn:H1.
    - injection H as <-. exists dt.
      destruct (strptime_dmY_fields _ _ H1) as (? & ? & ? & ? & ? & ? & ? & ?).
      auto.
    - destruct (strptime_Ymd s) as [dt|] eqn:H2; [| discriminate].
      injection H as <-. exists dt.
      destruct (strptime_Ymd_fields _ _ H2) as (? & ? & ? & ? & ? & ? & ? & ?).
      auto. }
  exists dt. split; [assumption |].
  pose proof Hv as Hv'. unfold valid in Hv'. bools.
  repeat split; try lia.
  - now apply strftime_dmY_parses.
  - now rewrite strftime_dmY_parses.
Qed.

(** The two spellings of one date normalise to the same string. *)
Theorem normalize_same_date (s1 s2 : string) (dt : date) :
  strptime_dmY s1 = Some dt ->
  strptime_Ymd s2 = Some dt ->
  normalize s1 = inr (strftime_dmY dt) /\
  normalize s2 = inr (strftime_dmY dt).
Proof.
  intros H1 H2. unfold normalize. rewrite H1. split; [reflexivity |].
  destruct (strptime_disjoint s2) as [-> | Hno]; [| congruence].
  now rewrite H2.
Qed.

(** Well-formed fields that name no calendar day (a day past the end of
    the month, or the year 0000) are refused with the 400 in either
    spelling. *)
Theorem normalize_rejects_impossible_day (fd fm fy : string) (d m y : Z) :
  field_d fd = Some d -> field_m fm = Some m -> field_Y fy = Some y ->
  y = 0 \/ days_in_month y m < d ->
  normalize (fd +:+ "-" +:+ fm +:+ "-" +:+ fy) = bad_dates /\
  normalize (fy +:+ "-" +:+ fm +:+ "-" +:+ fd) = bad_dates.
Proof.
  intros Hd Hm Hy Hbad.
  destruct (field_d_range _ _ Hd) as (_ & _ & Hdd).
  destruct (field_m_range _ _ Hm) as (_ & _ & Hdm).
  destruct (field_Y_range _ _ Hy) as (_ & _ & Hdy).
  assert (make_date y m d = None) as Hnone.
  { unfold make_date, valid.
    destruct (1 <=? y) eqn:H1; [| reflexivity].
    destruct (d <=? days_in_month y m) eqn:H2;
      [| now rewrite !andb_false_r].
    bools. lia. }
  unfold normalize, strptime_dmY, strptime_Ymd.
  rewrite !split_dash_fields by assumption.
  rewrite Hd, Hm, Hy, Hnone.
  now rewrite (field_d_not_Y _ _ Hd), (field_Y_not_d _ _ Hy).
Qed.

Lemma normalize_parsed (s : string) (dt : date) :
  strptime_dmY s = Some dt \/ strptime_Ymd s = Some dt ->
  normalize s = inr (strftime_dmY dt) /\
  valid (year dt) (month dt) (day dt) = true.
Proof.
  unfold normalize. intros [H | H].
  - rewrite H. split; [reflexivity |].
    now destruct (strptime_dmY_fields _ _ H) as (? & ? & ? & ? & ? & ? & ? & ?).
  - destruct (strptime_disjoint s) as [-> | Hno]; [| congruence].
    rewrite H. split; [reflexivity |].
    now destruct (strptime_Ymd_fields _ _ H) as (? & ? & ? & ? & ? & ? & ? & ?).
Qed.

(** Two dates that [normalize] accepts, with years of four digits, always
    pass the date parsing of [fetch_emails_by_date_range]: the query is
    built, with both dates as year/month/day.  The dates are not compared:
    a start after the end is accepted as well. *)
Theorem build_query_normalized (s1 s2 : string) (d1 d2 : date) :
  strptime_dmY s1 = Some d1 \/ strptime_Ymd s1 = Some d1 ->
  strptime_dmY s2 = Some d2 \/ strptime_Ymd s2 = Some d2 ->
  1000 <= year d1 -> 1000 <= year d2 ->
  exists sd ed,
    normalize s1 = inr sd /\ normalize s2 = inr ed /\
    build_query sd ed
    = inr ("after:" +:+ strftime_Ymd_slash d1 +:+
           " before:" +:+ strftime_Ymd_slash d2).
Proof.
  intros [Hn1 Hv1]%normalize_parsed [Hn2 Hv2]%normalize_parsed Hy1 Hy2.
  exists (strftime_dmY d1), (strftime_dmY d2).
  split; [assumption |]. split; [assumption |].
  unfold build_query. now rewrite !strftime_dmY_parses.
Qed.

End NormalizeFacts.

Lemma normalize_canonical_witness :
  exists dt,
    Dates.strptime_Ymd "2024-6-5" = Some dt /\
    Dates.strptime_dmY "05-06-2024" = Some dt /\
    Main.normalize "05-06-2024" = inr "05-06-2024".
Proof.
  destruct (normalize_canonical "2024-6-5" "05-06-2024" eq_refl)
    as (dt & [Hsrc | Hsrc] & _ & _ & _ & _ & Hfix); [discriminate |].
  exists dt. split; [exact Hsrc |].
  injection Hsrc as <-. now apply Hfix.
Defined.

Lemma normalize_same_date_witness :
  Main.normalize "5-6-2024" = inr "05-06-2024" /\
  Main.normalize "2024-06-05" = inr "05-06-2024".
Proof.
  apply (normalize_same_date "5-6-2024" "2024-06-05"
           {| Dates.year := 2024; Dates.month := 6; Dates.day := 5 |});
    reflexivity.
Defined.

Lemma normalize_rejects_impossible_day_witness :
  Main.normalize "29-02-2023" = Main.bad_dates /\
  Main.normalize "2023-02-29" = Main.bad_dates.
Proof.
  apply (normalize_rejects_impossible_day "29" "02" "2023" 29 2 2023);
    try reflexivity.
  right. reflexivity.
Defined.

Lemma build_query_normalized_witness :
  GmailService.build_query "05-06-2024" "01-07-2024"
  = inr "after:2024/06/05 before:2024/07/01".
Proof.
  destruct (build_query_normalized "2024-06-05" "1-7-2024"
              {| Dates.year := 2024; Dates.month := 6; Dates.day := 5 |}
              {| Dates.year := 2024; Dates.month := 7; Dates.day := 1 |}
              (or_intror eq_refl) (or_introl eq_refl))
    as (sd & ed & Hs & He & Hq); [simpl; lia | simpl; lia |].
  injection Hs as <-. injection He as <-. exact Hq.
Defined.

(** ** Fetching *)

Section FetchFacts.
Import Py Text Dates GmailService.

(** The header read is the first one with exactly the wanted name (the
    comparison is case-sensitive), and the empty string when no header has
    that name. *)
Theorem header_value_first (wanted : string) (hs : list (string * string)) :
  (forall pre v post,
      hs = pre ++ (wanted, v) :: post ->
      Forall (fun h => h.1 <> wanted) pre ->
      header_value wanted hs = v) /\
  (Forall (fun h => h.1 <> wanted) hs -> header_value wanted hs = "").
Proof.
  split.
  - intros pre v post -> Hpre.
    induction Hpre as [|h pre Hh _ IH]; simpl.
    + now rewrite String.eqb_refl.
    + apply String.eqb_neq in Hh. now rewrite Hh.
  - induction 1 as [|h l Hh _ IH]; [reflexivity |].
    simpl. apply String.eqb_neq in Hh. now rewrite Hh.
Qed.

Variable b64_utf8 : string -> option string.
Variable extract_text_from_html : string -> string.
Variable list_messages : string -> result (list string).
Variable get_message : string -> result mail_message.

Abbreviation loop := (fetch_loop b64_utf8 extract_text_from_html get_message).
Abbreviation fetch_range :=
  (fetch_emails_by_date_range b64_utf8 extract_text_from_html
     list_messages get_message).
Abbreviation read := (read_email b64_utf8 extract_text_from_html).

Lemma fetch_loop_read (ids : list string) (emails : list email) :
  loop ids = inr emails ->
  Forall2 (fun i e => exists msg, get_message i = inr msg /\ e = read i msg)
          ids emails.
Proof.
  revert emails. induction ids as [|i ids IH]; intros emails; simpl.
  - intros [= <-]. constructor.
  - destruct (get_message i) as [e | msg] eqn:Hget; [discriminate |].
    destruct (loop ids) as [e | tail]; [discriminate |].
    intros [= <-]. constructor; [now exists msg | now apply IH].
Qed.

Lemma fetch_loop_raises (pre post : list string) (i : string) (e : exn) :
  Forall (fun j => exists msg, get_message j = inr msg) pre ->
  get_message i = inl e ->
  loop (pre ++ i :: post) = inl e.
Proof.
  intros Hpre Hget. induction Hpre as [|j pre [msg Hj] _ IH]; simpl.
  - now rewrite Hget.
  - now rewrite Hj, IH.
Qed.

(** A fetch that returns has parsed both dates as DD-MM-YYYY, and gives
    one email per id of the listing, in the order of the listing, each read
    from the message fetched for that id and with its body decoded by
    [_decode_email_body]. *)
Theorem fetch_emails_by_date_range_returns (start_date end_date : string)
    (emails : list email) :
  fetch_range start_date end_date = inr emails ->
  exists d1 d2 ids,
    strptime_dmY start_date = Some d1 /\
    strptime_dmY end_date = Some d2 /\
    list_messages ("after:" +:+ strftime_Ymd_slash d1 +:+
                   " before:" +:+ strftime_Ymd_slash d2) = inr ids /\
    email_id <$> emails = ids /\
    Forall2 (fun i e => exists msg, get_message i = inr msg /\ e = read i msg)
            ids emails.
Proof.
  unfold fetch_emails_by_date_range, build_query.
  destruct (strptime_dmY start_date) as [d1|]; [| discriminate].
  destruct (strptime_dmY end_date) as [d2|]; [| discriminate].
  destruct (list_messages _) as [e | ids] eqn:Hlist; [discriminate |].
  destruct (loop ids) as [e | got] eqn:Hloop; [discriminate |].
  intros [= <-]. exists d1, d2, ids.
  pose proof (fetch_loop_read _ _ Hloop) as Hall.
  repeat split; try assumption.
  clear Hloop Hlist. induction Hall as [|i e ids got (msg & _ & ->) _ IH];
    [reflexivity |].
  now rewrite fmap_cons, IH.
Qed.

(** One failing message fetch fails the whole call with that exception:
    the emails already read are dropped. *)
Theorem fetch_emails_by_date_range_raises (start_date end_date query : string)
    (pre post : list string) (i : string) (e : exn) :
  build_query start_date end_date = inr query ->
  list_messages query = inr (pre ++ i :: post) ->
  Forall (fun j => exists msg, get_message j = inr msg) pre ->
  get_message i = inl e ->
  fetch_range start_date end_date = inl (Upstream e).
Proof.
  intros Hq Hlist Hpre Hget. unfold fetch_emails_by_date_range.
  now rewrite Hq, Hlist, (fetch_loop_raises _ _ _ _ Hpre Hget).
Qed.

(** The client parses its dates as DD-MM-YYYY only: a date written
    YYYY-MM-DD, the form its parameter comments name, is refused before any
    request is made, whatever the mailbox would answer. *)
Theorem fetch_emails_by_date_range_iso_refused (start_date end_date : string)
    (dt : date) :
  strptime_Ymd start_date = Some dt ->
  fetch_range start_date end_date = inl (BadDate start_date).
Proof.
  intros Hiso. unfold fetch_emails_by_date_range, build_query.
  destruct (strptime_disjoint start_date) as [-> | Hno];
    [reflexivity | congruence].
Qed.

End FetchFacts.

Lemma header_value_first_witness :
  GmailService.header_value "Subject"
    [("subject", "lower case"); ("Subject", "Win prize"); ("Subject", "second")]
  = "Win prize" /\
  GmailService.header_value "From" [("Subject", "Win prize")] = "".
Proof.
  split.
  - destruct (header_value_first "Subject"
                [("subject", "lower case"); ("Subject", "Win prize");
                 ("Subject", "second")]) as [Hfirst _].
    apply (Hfirst [("subject", "lower case")] "Win prize"
                  [("Subject", "second")] eq_refl).
    repeat constructor. discriminate.
  - destruct (header_value_first "From" [("Subject", "Win prize")])
      as [_ Hnone].
    apply Hnone. repeat constructor. discriminate.
Defined.

Lemma fetch_emails_by_date_range_returns_witness :
  GmailService.email_id <$>
    [ {| GmailService.email_id := "m1";
         GmailService.email_sender := "a@example.com";
         GmailService.email_subject := "Win prize";
         GmailService.email_body := "hello" |};
      {| GmailService.email_id := "m2";
         GmailService.email_sender := "";
         GmailService.email_subject := "";
         GmailService.email_body := "top" |} ]
  = ["m1"; "m2"].
Proof.
  destruct (fetch_emails_by_date_range_returns Samples.b64_utf8
              Samples.extract_text_from_html Samples.list_messages
              Samples.get_message "05-06-2024" "01-07-2024" _ eq_refl)
    as (d1 & d2 & ids & H1 & H2 & Hlist & Hids & _).
  injection H1 as <-. injection H2 as <-.
  injection Hlist as <-. exact Hids.
Defined.

Lemma fetch_emails_by_date_range_raises_witness :
  GmailService.fetch_emails_by_date_range Samples.b64_utf8
    Samples.extract_text_from_html (fun _ => inr ["m1"; "m9"; "m2"])
    Samples.get_message "05-06-2024" "01-07-2024"
  = inl (GmailService.Upstream (Py.ApiError "Requested entity was not found.")).
Proof.
  apply (fetch_emails_by_date_range_raises Samples.b64_utf8
           Samples.extract_text_from_html (fun _ => inr ["m1"; "m9"; "m2"])
           Samples.get_message "05-06-2024" "01-07-2024"
           "after:2024/06/05 before:2024/07/01" ["m1"] ["m2"] "m9");
    try reflexivity.
  repeat constructor. eexists. reflexivity.
Defined.

Lemma fetch_emails_by_date_range_iso_refused_witness :
  Samples.fetch "2024-06-05" "2024-07-01"
  = inl (GmailService.BadDate "2024-06-05").
Proof.
  apply (fetch_emails_by_date_range_iso_refused Samples.b64_utf8
           Samples.extract_text_from_html Samples.list_messages
           Samples.get_message "2024-06-05" "2024-07-01"
           {| Dates.year := 2024; Dates.month := 6; Dates.day := 5 |}).
  reflexivity.
Defined.

(** ** The fetch handler *)

Section FetchEmailsFacts.
Import Py Text Dates GmailService Main.

Variable generated_text : string -> string.
Variable fetch : string -> string -> fetch_error + list email.

Abbreviation classify := (classify_loop generated_text).
Abbreviation handler := (fetch_emails generated_text fetch).

Lemma classify_email_str (s1 s2 : value) (b : string) :
  SpamClassifier.classify_email generated_text s1 s2 (PyStr b)
  = inr (SpamClassifier.label_of
           (generated_text (SpamClassifier.prompt s1 s2 (substring 0 256 b)))).
Proof. now destruct b. Qed.

Lemma classify_loop_counts (mails : list email) (n : nat) :
  exists classified,
    classify mails n
    = inr (classified,
           (n + length (filter (fun e => is_spam e = true) classified))%nat) /\
    length classified = length mails /\
    id <$> classified = (fun e => PyStr (email_id e)) <$> mails /\
    Forall labelled_by_model classified.
Proof.
  assert (String.eqb (lower "spam") "spam" = true) as Hspam by reflexivity.
  assert (String.eqb (lower "not-spam") "spam" = false) as Hham by reflexivity.
  revert n. induction mails as [|e mails IH]; intros n.
  - exists []. simpl. repeat split; [f_equal; f_equal; lia | constructor].
  - cbn [classify_loop]. rewrite classify_email_str.
    destruct (label_of_cases
                (generated_text
                   (SpamClassifier.prompt (PyStr (email_sender e))
                      (PyStr (email_subject e))
                      (substring 0 256 (email_body e))))) as [-> | ->].
    + rewrite Hspam. cbv iota.
      destruct (IH (S n)) as (cl & -> & Hlen & Hids & Hlab).
      exists (labelled e "spam" :: cl).
      rewrite filter_cons_True by reflexivity.
      rewrite !fmap_cons, Hids. cbn [length].
      repeat split; [unfold ret; f_equal; f_equal; lia | lia |].
      constructor; [now left | assumption].
    + rewrite Hham. cbv iota.
      destruct (IH n) as (cl & -> & Hlen & Hids & Hlab).
      exists (labelled e "not-spam" :: cl).
      rewrite filter_cons_False by discriminate.
      rewrite !fmap_cons, Hids. cbn [length].
      repeat split; [lia |].
      constructor; [now right | assumption].
Qed.

(** A fetch that shows results has stored, under the session's id (the
    one the session had, else the fresh one), exactly one labelled message
    per fetched email, in order, each labelled "spam" or "not-spam", with
    provenance "model prediction"; the total it reports is their number and
    the spam count it reports is the number of messages the trash handler
    would select from that list. *)
Theorem fetch_emails_results (fresh : string) (now1 now2 : Z)
    (start_date end_date : string) (session_user_id session : option string)
    (email_cache cache : gmap string entry) (total spam : nat) :
  handler None fresh now1 now2 start_date end_date session_user_id email_cache
  = (session, cache, Results total spam) ->
  exists user_id sd ed mails classified,
    session = Some user_id /\
    user_id = default fresh session_user_id /\
    normalize start_date = inr sd /\ normalize end_date = inr ed /\
    fetch sd ed = inr mails /\
    cache = store_user_emails now1 now2 user_id classified
              "model prediction" email_cache /\
    total = length mails /\ total = length classified /\
    spam = length (spam_ids classified) /\
    id <$> classified = (fun e => PyStr (email_id e)) <$> mails /\
    Forall labelled_by_model classified.
Proof.
  unfold fetch_emails.
  destruct (get_or_create_user_id fresh session_user_id)
    as [sess user_id] eqn:Huid.
  destruct (normalize start_date) as [bad | sd]; [discriminate |].
  destruct (normalize end_date) as [bad | ed]; [discriminate |].
  destruct (fetch sd ed) as [e | [|m mails]] eqn:Hfetch; try discriminate.
  destruct (classify_loop_counts (m :: mails) 0)
    as (cl & Hloop & Hlen & Hids & Hlab).
  rewrite Hloop. intros [= <- <- <- <-].
  exists user_id, sd, ed, (m :: mails), cl.
  assert (sess = Some user_id /\ user_id = default fresh session_user_id)
    as [-> ->].
  { unfold get_or_create_user_id in Huid.
    destruct session_user_id; injection Huid as <- <-; auto. }
  unfold spam_ids. rewrite length_map.
  repeat split; auto.
Qed.

(** Whatever the mailbox and the model do, the handler ends in a refusal
    (401 or 400), the wrapped fetch failure, the no-emails answer or the
    results: no exception escapes it.  Unless it shows results the cache is
    left exactly as it was, so after a fetch that finds no email an earlier
    result of the same session stays in the cache. *)
Theorem fetch_emails_keeps_cache (authenticated : option response)
    (fresh : string) (now1 now2 : Z) (start_date end_date : string)
    (session_user_id session : option string)
    (email_cache cache : gmap string entry) (answer : reply) :
  handler authenticated fresh now1 now2 start_date end_date
    session_user_id email_cache = (session, cache, answer) ->
  (forall e, answer <> Unhandled e) /\
  ((forall total spam, answer <> Results total spam) -> cache = email_cache) /\
  (answer = Empty ->
   cache = email_cache /\
   exists sd ed, normalize start_date = inr sd /\ normalize end_date = inr ed /\
                 fetch sd ed = inr []).
Proof.
  unfold fetch_emails.
  destruct (get_or_create_user_id fresh session_user_id) as [sess user_id].
  destruct authenticated as [denied|];
    [intros [= <- <- <-]; now repeat split |].
  destruct (normalize start_date) as [bad | sd];
    [intros [= <- <- <-]; now repeat split |].
  destruct (normalize end_date) as [bad | ed];
    [intros [= <- <- <-]; now repeat split |].
  destruct (fetch sd ed) as [e | [|m mails]] eqn:Hfetch.
  - intros [= <- <- <-]. now repeat split.
  - intros [= <- <- <-]. repeat split; try discriminate. now exists sd, ed.
  - destruct (classify_loop_counts (m :: mails) 0) as (cl & -> & _).
    intros [= <- <- <-]. repeat split; try discriminate.
    intros Hno. now destruct (Hno (length (m :: mails))
      (0 + length (filter (fun e => is_spam e = true) cl))%nat).
Qed.

(** Only the first 256 characters of the body reach the model: two
    bodies that agree on them get the same label. *)
Theorem classify_email_truncates (s1 s2 : value) (b1 b2 : string) :
  substring 0 256 b1 = substring 0 256 b2 ->
  SpamClassifier.classify_email generated_text s1 s2 (PyStr b1)
  = SpamClassifier.classify_email generated_text s1 s2 (PyStr b2).
Proof. intros H. now rewrite !classify_email_str, H. Qed.

End FetchEmailsFacts.

Lemma classify_email_truncates_witness :
  SpamClassifier.classify_email Samples.generated_text (Py.PyStr "a@example.com")
    (Py.PyStr "Hi") (Py.PyStr (Samples.filler +:+ " win a prize"))
  = SpamClassifier.classify_email Samples.generated_text (Py.PyStr "a@example.com")
      (Py.PyStr "Hi") (Py.PyStr (Samples.filler +:+ " see you at noon")).
Proof.
  apply (classify_email_truncates Samples.generated_text). reflexivity.
Defined.

Lemma fetch_emails_results_witness :
  exists classified,
    (Main.fetch_emails Samples.generated_text Samples.fetch None "uuid-1" 0 0
       "2024-06-05" "1-7-2024" None ∅).1.2
    = Main.store_user_emails 0 0 "uuid-1" classified "model prediction" ∅ /\
    length classified = 2%nat /\
    length (Main.spam_ids classified) = 1%nat.
Proof.
  destruct (fetch_emails_results Samples.generated_text Samples.fetch
              "uuid-1" 0 0 "2024-06-05" "1-7-2024" None
              (Some "uuid-1") ∅
              (Main.fetch_emails Samples.generated_text Samples.fetch None
                 "uuid-1" 0 0 "2024-06-05" "1-7-2024" None ∅).1.2
              2%nat 1%nat eq_refl)
    as (uid & sd & ed & mails & cl & _ & -> & _ & _ & _ & Hc & _ & Hlen & Hspam & _).
  exists cl. split; [exact Hc |]. split; congruence.
Defined.

Lemma fetch_emails_keeps_cache_witness :
  let cache :=
    Main.store_user_emails 0 0 "u" Samples.four_mails "model prediction" ∅ in
  (Main.fetch_emails Samples.generated_text (fun _ _ => inr []) None "uuid-1"
     9 9 "2024-06-05" "1-7-2024" (Some "u") cache).1.2 = cache.
Proof.
  intros cache.
  destruct (fetch_emails_keeps_cache Samples.generated_text
              (fun _ _ => inr []) None "uuid-1" 9 9 "2024-06-05" "1-7-2024"
              (Some "u") (Some "u") cache cache Main.Empty eq_refl)
    as (_ & Hkeep & _).
  apply Hkeep. discriminate.
Defined.

(** ** Sweeps, active results and logout *)

Section SweepFacts.
Import Py Main.

Implicit Types (email_cache : gmap string entry) (uid : string).

(** After a sweep no entry is left that was expired at the reading taken
    for it, and what is left is as it was.  A sweep after a sweep with no
    later readings removes nothing more, and a later sweep makes an earlier
    one redundant. *)
Theorem cleanup_expired_cache_composes (n1 n2 : string -> Z) email_cache :
  (forall uid cached,
      cleanup_expired_cache n1 email_cache !! uid = Some cached ->
      n1 uid <= expires_at cached /\ email_cache !! uid = Some cached) /\
  ((forall uid, n1 uid <= n2 uid) ->
   cleanup_expired_cache n2 (cleanup_expired_cache n1 email_cache)
   = cleanup_expired_cache n2 email_cache /\
   cleanup_expired_cache n1 (cleanup_expired_cache n2 email_cache)
   = cleanup_expired_cache n2 email_cache).
Proof.
  split.
  - intros uid cached. rewrite lookup_cleanup.
    destruct (email_cache !! uid) as [c|]; [| discriminate].
    destruct (expires_at c <? n1 uid) eqn:Hexp; [discriminate |].
    intros [= <-]. bools. auto.
  - intros Hle. split; apply map_eq; intros uid;
      rewrite !lookup_cleanup; specialize (Hle uid);
      destruct (email_cache !! uid) as [c|]; try reflexivity;
      destruct (expires_at c <? n1 uid) eqn:H1;
      destruct (expires_at c <? n2 uid) eqn:H2;
      rewrite ?H1, ?H2; try reflexivity; bools; lia.
Qed.

(** What [_get_active_results] hands to a handler is the stored list and
    provenance of the session's own entry, and that entry was expired
    neither at the sweep nor at the read; the cache it leaves is the swept
    one.  Without a session id it returns nothing and does not even sweep. *)
Theorem get_active_results_live (now_at : string -> Z) (now : Z)
    (session_user_id : option string) email_cache :
  (forall cache mails src,
      _get_active_results now_at now session_user_id email_cache
      = (cache, (Some mails, src)) ->
      exists user_id cached,
        GmailService.present session_user_id = Some user_id /\
        email_cache !! user_id = Some cached /\
        emails cached = mails /\ src = Some (source cached) /\
        now_at user_id <= expires_at cached /\ now <= expires_at cached /\
        cache = cleanup_expired_cache now_at email_cache) /\
  (GmailService.present session_user_id = None ->
   _get_active_results now_at now session_user_id email_cache
   = (email_cache, (None, None))).
Proof.
  unfold _get_active_results. split.
  - intros cache mails src.
    destruct (GmailService.present session_user_id) as [user_id|];
      [| discriminate].
    unfold get_user_emails. rewrite lookup_cleanup.
    destruct (email_cache !! user_id) as [cached|] eqn:Hlook; [| discriminate].
    destruct (expires_at cached <? now_at user_id) eqn:H1; [discriminate |].
    destruct (expires_at cached <? now) eqn:H2; [discriminate |].
    intros [= <- <- <-]. exists user_id, cached. bools. auto 10.
  - now intros ->.
Qed.

(** After logout the session's entry is gone, whatever its age, the other
    entries are untouched, and the active results of that session are
    empty at any later time. *)
Theorem logout_forgets (session_user_id : option string) email_cache :
  (forall uid, GmailService.present session_user_id = Some uid ->
               logout session_user_id email_cache !! uid = None) /\
  (forall uid, GmailService.present session_user_id <> Some uid ->
               logout session_user_id email_cache !! uid = email_cache !! uid) /\
  (forall now_at now,
      (_get_active_results now_at now session_user_id
         (logout session_user_id email_cache)).2 = (None, None)).
Proof.
  assert (forall uid, GmailService.present session_user_id = Some uid ->
                      logout session_user_id email_cache !! uid = None) as Hgone.
  { intros uid Hp. unfold logout. rewrite Hp.
    destruct (email_cache !! uid) eqn:Hl; [apply lookup_delete_eq | exact Hl]. }
  split; [exact Hgone |]. split.
  - intros uid Hne. unfold logout.
    destruct (GmailService.present session_user_id) as [u|]; [| reflexivity].
    destruct (email_cache !! u); [| reflexivity].
    apply lookup_delete_ne. congruence.
  - intros now_at now. unfold _get_active_results.
    destruct (GmailService.present session_user_id) as [u|] eqn:Hp;
      [| reflexivity].
    unfold get_user_emails. now rewrite lookup_cleanup, (Hgone u eq_refl).
Qed.

End SweepFacts.

Lemma cleanup_expired_cache_composes_witness :
  let cache :=
    Main.store_user_emails 100 100 "new" Samples.ham_mails "user corrected"
      (Main.store_user_emails 0 0 "old" Samples.four_mails "model prediction" ∅) in
  Main.cleanup_expired_cache (Samples.clock (Main.two_hours + 50))
    (Main.cleanup_expired_cache (Samples.clock Main.two_hours) cache)
  = Main.cleanup_expired_cache (Samples.clock (Main.two_hours + 50)) cache.
Proof.
  intros cache.
  destruct (cleanup_expired_cache_composes (Samples.clock Main.two_hours)
              (Samples.clock (Main.two_hours + 50)) cache) as [_ Hlater].
  apply Hlater. intros uid. unfold Samples.clock. lia.
Defined.

Lemma get_active_results_live_witness :
  let cache :=
    Main.store_user_emails 0 0 "u" Samples.four_mails "model prediction" ∅ in
  Main._get_active_results (Samples.clock 5) 6 (Some "") cache
  = (cache, (None, None)) /\
  exists cached,
    cache !! "u" = Some cached /\ 6 <= Main.expires_at cached.
Proof.
  intros cache. split.
  - destruct (get_active_results_live (Samples.clock 5) 6 (Some "") cache)
      as [_ Hnone].
    apply Hnone. reflexivity.
  - destruct (get_active_results_live (Samples.clock 5) 6 (Some "u") cache)
      as [Hlive _].
    destruct (Hlive _ _ _ eq_refl)
      as (uid & cached & Hp & Hlook & _ & _ & _ & Hnow & _).
    injection Hp as <-. now exists cached.
Defined.

Lemma logout_forgets_witness :
  let cache :=
    Main.store_user_emails 100 100 "new" Samples.ham_mails "user corrected"
      (Main.store_user_emails 0 0 "old" Samples.four_mails "model prediction" ∅) in
  Main.logout (Some "old") cache !! "old" = None /\
  Main.logout (Some "old") cache !! "new" = cache !! "new".
Proof.
  intros cache.
  destruct (logout_forgets (Some "old") cache) as (Hgone & Hkeep & _).
  split; [apply Hgone; reflexivity | apply Hkeep; discriminate].
Defined.

Lemma reads_keep_entries_witness :
  let cache :=
    Main.store_user_emails 100 100 "new" Samples.ham_mails "user corrected"
      (Main.store_user_emails 0 0 "old" Samples.four_mails "model prediction" ∅) in
  cache !! "new"
  = Some {| Main.emails := Samples.ham_mails; Main.source := "user corrected";
            Main.created_at := 100; Main.expires_at := 100 + Main.two_hours |}.
Proof.
  intros cache.
  apply (reads_keep_entries
           (Main.Active (Samples.clock (Main.two_hours + 50))
              (Main.two_hours + 60) (Some "old")) cache "new");
    reflexivity.
Defined.

(** ** Corrections, summary and trash *)

Section ReviewFacts.
Import Py Text GmailService Main.

Implicit Types (email_cache : gmap string entry).

Lemma has_column_normalised (wanted : string) (cols : list string) :
  has_column wanted (map (fun c => lower (strip c)) cols) = true <->
  exists c, c ∈ cols /\ lower (strip c) = wanted.
Proof.
  unfold has_column. rewrite existsb_exists. split.
  - intros (x & Hin & Heq). apply in_map_iff in Hin as (c & <- & Hc).
    exists c. split; [now apply list_elem_of_In |].
    apply String.eqb_eq in Heq. now symmetry.
  - intros (c & Hc & <-). exists (lower (strip c)).
    split; [| apply String.eqb_refl].
    apply in_map_iff. exists c. split; [reflexivity | now apply list_elem_of_In].
Qed.

(** An upload either leaves the cache exactly as it was and shows no
    results, or it passed every check (a name ending in .xlsx in any letter
    case, a session id, a readable sheet with a column that trims and
    lower-cases to "id" and one to "prediction") and has replaced the
    session's entry by the rows with provenance "user corrected", which a
    get within the new lifetime returns.  In the second case the answer is
    the result page with the row count and the number of rows the trash
    handler would select, unless the page file is missing: then the answer
    is the 400 although the rows are stored. *)
Theorem upload_corrections_effect (filename : string) (read_excel : result sheet)
    (page_found : bool) (now1 now2 : Z) (session_user_id : option string)
    email_cache cache (answer : reply) :
  upload_corrections filename read_excel page_found now1 now2
    session_user_id email_cache = (cache, answer) ->
  (cache = email_cache /\ forall total spam, answer <> Results total spam) \/
  (exists user_id df,
      endswith ".xlsx" (lower filename) = true /\
      present session_user_id = Some user_id /\
      read_excel = inr df /\
      (exists c, c ∈ columns df /\ lower (strip c) = "id") /\
      (exists c, c ∈ columns df /\ lower (strip c) = "prediction") /\
      cache = store_user_emails now1 now2 user_id (records df)
                "user corrected" email_cache /\
      answer = (if page_found
                then Results (length (records df))
                             (length (spam_ids (records df)))
                else ProcessFailed) /\
      forall now, now <= now2 + two_hours ->
                  get_user_emails now user_id cache
                  = (cache, (Some (records df), Some "user corrected"))).
Proof.
  unfold upload_corrections.
  destruct (endswith ".xlsx" (lower filename)) eqn:Hext; simpl;
    [| intros [= <- <-]; left; now split].
  destruct (present session_user_id) as [user_id|] eqn:Hsid;
    [| intros [= <- <-]; left; now split].
  destruct read_excel as [e | df]; [intros [= <- <-]; left; now split |].
  destruct (has_column "id" _) eqn:Hid; simpl;
    [| intros [= <- <-]; left; now split].
  destruct (has_column "prediction" _) eqn:Hpred; simpl;
    [| intros [= <- <-]; left; now split].
  intros Heq. right. exists user_id, df.
  apply has_column_normalised in Hid, Hpred.
  assert (cache = store_user_emails now1 now2 user_id (records df)
                    "user corrected" email_cache) as ->
    by (destruct page_found; now injection Heq).
  repeat split; try assumption; try reflexivity.
  - unfold spam_ids. rewrite length_map.
    destruct page_found; now injection Heq.
  - intros now Hnow.
    now rewrite (get_user_emails_live now user_id _ _
                   (store_user_emails_entry now1 now2 user_id _ _ _)).
Qed.

Variable mailbox : Type.
Variable trash : string -> mailbox -> mailbox * result unit.

Lemma move_emails_to_trash_all (ids : list string) (mb mb' : mailbox) :
  all_trashed mailbox trash ids mb mb' ->
  move_emails_to_trash mailbox trash ids mb = (mb', inr (length ids)).
Proof.
  intros Hall. unfold move_emails_to_trash.
  rewrite <- (app_nil_r ids), (trash_loop_prefix _ _ _ _ _ _ Hall).
  now rewrite app_nil_r.
Qed.

(** For a cached list that is not empty the summary counts the messages
    the trash handler selects: its count is never above its total, and
    when every trash call succeeds the number the trash handler reports as
    moved is the count of the summary.  Neither handler removes anything
    from the cached list. *)
Theorem spam_summary_matches_trash (now_at : string -> Z) (now : Z)
    (session_user_id : option string) email_cache cache
    (mails : list message) (src : option string) :
  _get_active_results now_at now session_user_id email_cache
  = (cache, (Some mails, src)) ->
  mails <> [] ->
  let shown := (spam_summary now_at now session_user_id email_cache).2 in
  spam_summary now_at now session_user_id email_cache
  = (cache, {| count := length (spam_ids mails); total := length mails;
               not_spam := Some (length mails - length (spam_ids mails))%nat;
               summary_source := src |}) /\
  (count shown <= total shown)%nat /\
  (forall mb mb',
      spam_ids mails <> [] ->
      all_trashed mailbox trash (spam_ids mails) mb mb' ->
      move_to_trash mailbox trash None now_at now session_user_id email_cache mb
      = (cache, mb', moved_to_trash (count shown) src)).
Proof.
  intros Hactive Hne shown.
  assert (spam_summary now_at now session_user_id email_cache
          = (cache, {| count := length (spam_ids mails); total := length mails;
                       not_spam := Some (length mails - length (spam_ids mails))%nat;
                       summary_source := src |})) as Hsum.
  { unfold spam_summary. rewrite Hactive.
    destruct mails as [|m ms]; [contradiction |].
    unfold spam_ids. now rewrite length_map. }
  split; [exact Hsum |]. subst shown. rewrite Hsum. simpl. split.
  - unfold spam_ids. rewrite length_map. apply length_filter.
  - intros mb mb' Hids Hall. unfold move_to_trash. rewrite Hactive.
    destruct mails as [|m ms]; [contradiction |].
    destruct (spam_ids (m :: ms)) as [|i ids] eqn:Hsel; [contradiction |].
    now rewrite (move_emails_to_trash_all _ _ _ Hall).
Qed.

(** When the trash call for one selected id raises, the handler answers
    500, the selected ids before it stay trashed, and the cached list is
    kept whole: the same request again starts from the first selected id. *)
Theorem move_to_trash_fails_midway (now_at : string -> Z) (now : Z)
    (session_user_id : option string) email_cache cache
    (mails : list message) (src : option string)
    (pre post : list string) (msg_id : string) (mb mb1 mb2 : mailbox) (e : exn) :
  _get_active_results now_at now session_user_id email_cache
  = (cache, (Some mails, src)) ->
  spam_ids mails = pre ++ msg_id :: post ->
  all_trashed mailbox trash pre mb mb1 ->
  trash msg_id mb1 = (mb2, inl e) ->
  move_to_trash mailbox trash None now_at now session_user_id email_cache mb
  = (cache, mb2, move_failed e).
Proof.
  intros Hactive Hids Hall Hcall. unfold move_to_trash. rewrite Hactive.
  destruct mails as [|m ms]; [now destruct pre |].
  assert (move_emails_to_trash mailbox trash (spam_ids (m :: ms)) mb
          = (mb2, inl e)) as Hmove.
  { rewrite Hids. unfold move_emails_to_trash.
    rewrite (trash_loop_prefix _ _ _ _ _ _ Hall). simpl. now rewrite Hcall. }
  destruct (spam_ids (m :: ms)) as [|i ids]; [now destruct pre |].
  now rewrite Hmove.
Qed.

End ReviewFacts.

Lemma upload_corrections_effect_witness :
  let cache :=
    Main.store_user_emails 0 0 "u" Samples.ham_mails "model prediction" ∅ in
  (Main.upload_corrections "notes.csv" (inr Samples.corrections) true 7 7
     (Some "u") cache).1 = cache /\
  exists corrected,
    (Main.upload_corrections "Fixed.XLSX" (inr Samples.corrections) true 7 7
       (Some "u") cache).1 = corrected /\
    Main.get_user_emails (7 + Main.two_hours) "u" corrected
    = (corrected, (Some Samples.four_mails, Some "user corrected")).
Proof.
  intros cache. split.
  - destruct (upload_corrections_effect "notes.csv" (inr Samples.corrections)
                true 7 7 (Some "u") cache _ _ eq_refl)
      as [[Hsame _] | (uid & df & Hext & _)]; [exact Hsame | discriminate Hext].
  - destruct (upload_corrections_effect "Fixed.XLSX" (inr Samples.corrections)
                true 7 7 (Some "u") cache _ _ eq_refl)
      as [[_ Hno] | (uid & df & _ & Hsid & Hread & _ & _ & Hcache & _ & Hget)].
    + exfalso. eapply Hno. reflexivity.
    + injection Hsid as <-. injection Hread as <-.
      eexists. split; [exact Hcache |]. apply Hget. lia.
Defined.

Lemma spam_summary_matches_trash_witness :
  let cache :=
    Main.store_user_emails 0 0 "u" Samples.four_mails "model prediction" ∅ in
  Main.move_to_trash (list string) Samples.trash None (Samples.clock 1) 1
    (Some "u") cache []
  = (cache, ["m2"; "m1"], Main.moved_to_trash 2 (Some "model prediction")).
Proof.
  intros cache.
  destruct (spam_summary_matches_trash (list string) Samples.trash
              (Samples.clock 1) 1 (Some "u") cache cache Samples.four_mails
              (Some "model prediction") eq_refl) as (_ & _ & Hmoved);
    [discriminate |].
  apply Hmoved; [discriminate |].
  repeat (eapply GmailService.all_trashed_cons; [reflexivity |]).
  apply GmailService.all_trashed_nil.
Defined.

Lemma move_to_trash_fails_midway_witness :
  let cache :=
    Main.store_user_emails 0 0 "u" Samples.spam_with_gone "user corrected" ∅ in
  Main.move_to_trash (list string) Samples.trash None (Samples.clock 1) 1
    (Some "u") cache []
  = (cache, ["m1"],
     Main.move_failed (Py.ApiError "Requested entity was not found.")).
Proof.
  intros cache.
  apply (move_to_trash_fails_midway (list string) Samples.trash
           (Samples.clock 1) 1 (Some "u") cache cache Samples.spam_with_gone
           (Some "user corrected") ["m1"] ["m3"] "gone" [] ["m1"] ["m1"]);
    try reflexivity.
  eapply GmailService.all_trashed_cons; [reflexivity |].
  apply GmailService.all_trashed_nil.
Defined.

Section LastFacts.
Import Py GmailService Main.

(** Once a get has answered absent for an owner, every further get for
    that owner answers absent, at whatever clock reading, until a put: an
    entry found expired is deleted, so a clock that steps back cannot bring
    it back. *)
Theorem get_user_emails_absent_stays (now later : Z) (uid : string)
    (email_cache : gmap string entry) :
  (get_user_emails now uid email_cache).2 = (None, None) ->
  (get_user_emails now uid email_cache).1 !! uid = None /\
  get_user_emails later uid (get_user_emails now uid email_cache).1
  = ((get_user_emails now uid email_cache).1, (None, None)).
Proof.
  intros Habsent.
  assert ((get_user_emails now uid email_cache).1 !! uid = None) as Hgone.
  { revert Habsent. unfold get_user_emails.
    destruct (email_cache !! uid) as [cached|] eqn:Hlook; [| now simpl].
    destruct (expires_at cached <? now); [| discriminate].
    intros _. apply lookup_delete_eq. }
  split; [exact Hgone |].
  unfold get_user_emails at 1. now rewrite Hgone.
Qed.

(** A date that neither format parses is answered with the 400 before the
    mailbox is asked anything: the answer is the same for every mailbox,
    the cache is untouched, and the session has an id afterwards all the
    same. *)
Theorem fetch_emails_bad_date (generated_text : string -> string)
    (fetch : string -> string -> fetch_error + list email)
    (fresh : string) (now1 now2 : Z) (start_date end_date : string)
    (session_user_id : option string) (email_cache : gmap string entry) :
  normalize start_date = bad_dates \/ normalize end_date = bad_dates ->
  fetch_emails generated_text fetch None fresh now1 now2 start_date end_date
    session_user_id email_cache
  = (Some (default fresh session_user_id), email_cache,
     Refused (HTTPException 400 "Dates must be DD-MM-YYYY or YYYY-MM-DD")).
Proof.
  assert (forall s r, normalize s = inl r ->
                      r = HTTPException 400 "Dates must be DD-MM-YYYY or YYYY-MM-DD")
    as Hbad.
  { intros s r. unfold normalize.
    destruct (Dates.strptime_dmY s); [discriminate |].
    destruct (Dates.strptime_Ymd s); [discriminate |].
    now intros [= <-]. }
  intros Hor. unfold fetch_emails.
  assert (get_or_create_user_id fresh session_user_id
          = (Some (default fresh session_user_id), default fresh session_user_id))
    as -> by now destruct session_user_id.
  destruct (normalize start_date) as [bad | sd] eqn:Hs.
  - now rewrite (Hbad _ _ Hs).
  - destruct Hor as [Hor | Hor]; [discriminate |].
    now rewrite Hor.
Qed.

End LastFacts.

Lemma get_user_emails_absent_stays_witness :
  let cache :=
    Main.store_user_emails 0 0 "u" Samples.four_mails "model prediction" ∅ in
  Main.get_user_emails 5 "u"
    (Main.get_user_emails (Main.two_hours + 1) "u" cache).1
  = ((Main.get_user_emails (Main.two_hours + 1) "u" cache).1, (None, None)).
Proof.
  intros cache.
  apply (get_user_emails_absent_stays (Main.two_hours + 1) 5 "u" cache).
  reflexivity.
Defined.

Lemma fetch_emails_bad_date_witness :
  Main.fetch_emails Samples.generated_text Samples.fetch None "uuid-1" 0 0
    "2024-13-40" "2024-06-05" None ∅
  = (Some "uuid-1", ∅,
     Main.Refused
       (Main.HTTPException 400 "Dates must be DD-MM-YYYY or YYYY-MM-DD")).
Proof.
  apply (fetch_emails_bad_date Samples.generated_text Samples.fetch "uuid-1"
           0 0 "2024-13-40" "2024-06-05" None ∅).
  left. reflexivity.
Defined.
